(** * Timeline task manager: synchronisation protocol and coordinate engine

  A shallow embedding of the browser client [backend/public/app.js]
  (classes [APIService], [WebSocketService], [TimelineTaskManager]) and of
  the HTTP/WebSocket server [backend/server.js], followed by the properties
  of the synchronisation protocol and of the timeline coordinate engine.

  Conventions.
  - JavaScript numbers that take part in arithmetic are exact rationals
    ([Q], compared with [==]); rounding of IEEE doubles is not modelled.
  - Counters and millisecond delays are integers ([Z]).
  - A JavaScript object used as a property bag is a [gmap string _];
    arrays are lists; the [Set] of pending creations is a [gset string].
  - Asynchronous methods are split at their [await]: one transition for
    the part before it and one for each outcome of the awaited promise. *)

From Stdlib Require Import QArith Qminmax Qabs Lqa Ascii String.
From stdpp Require Import gmap strings list fin_maps sorting.

(** ** JavaScript values *)

Module Js.

(** A property value that came out of [JSON.parse]. Nested arrays and
    objects do not occur as property values of a task and are left out. *)
Inductive json :=
| JNull
| JBool (b : bool)
| JNum (q : Q)
| JStr (s : string).

Inductive number :=
| NaN
| Fin (q : Q).

(** A property value of an object built by the client: a JSON value,
    [undefined], a number that may be [NaN], or a [Date] (its time value in
    milliseconds, [None] for an Invalid Date). *)
Inductive jsval :=
| VUndef
| VNull
| VBool (b : bool)
| VNum (n : number)
| VStr (s : string)
| VDate (t : option Z).

Definition of_json (j : json) : jsval :=
  match j with
  | JNull => VNull
  | JBool b => VBool b
  | JNum q => VNum (Fin q)
  | JStr s => VStr s
  end.

(** [o.k] on a parsed object: [undefined] when the property is missing. *)
Definition prop (o : gmap string json) (k : string) : jsval :=
  from_option of_json VUndef (o !! k).

(** [o.k] on a client-side object. *)
Definition get (o : gmap string jsval) (k : string) : jsval :=
  default VUndef (o !! k).

(** ToBoolean. *)
Definition truthy (v : jsval) : bool :=
  match v with
  | VUndef | VNull => false
  | VBool b => b
  | VNum NaN => false
  | VNum (Fin q) => negb (Qeq_bool q 0)
  | VStr s => negb (String.eqb s "")
  | VDate _ => true
  end.

(** [a || b]. *)
Definition logical_or (a b : jsval) : jsval := if truthy a then a else b.

(** [a === b]. Two [Date]s are the same only if they are the same object;
    the model carries no object identities and answers [false] for them
    (the modelled code compares identifiers only, never [Date]s). *)
Definition strict_eq (a b : jsval) : bool :=
  match a, b with
  | VUndef, VUndef => true
  | VNull, VNull => true
  | VBool x, VBool y => Bool.eqb x y
  | VNum (Fin x), VNum (Fin y) => Qeq_bool x y
  | VStr x, VStr y => String.eqb x y
  | _, _ => false
  end.

(** [array.findIndex(p)], with [None] for [-1]. *)
Fixpoint findIndex {A} (p : A -> bool) (l : list A) : option nat :=
  match l with
  | [] => None
  | x :: l' => if p x then Some 0%nat else S <$> findIndex p l'
  end.

(** [array.splice(i, 1)]. *)
Definition splice1 {A} (i : nat) (l : list A) : list A := delete i l.

(** The built-in conversions between strings and other values, which the
    language leaves to the host (number syntax, date syntax, the text form
    of an identifier of the store). The development is generic in them. *)
Class Runtime := {
  string_to_number : string -> number;   (* Number(s) *)
  number_to_string : Q -> string;        (* String(n) *)
  date_parse : string -> option Z;       (* new Date(s).getTime() *)
  is_object_id : string -> bool          (* castable to an ObjectId *)
}.

(** TimeClip of a number: an integral number of milliseconds of magnitude
    at most 8.64e15, or an Invalid Date. *)
Definition time_clip (n : number) : option Z :=
  match n with
  | NaN => None
  | Fin q =>
      if Qle_bool (Qabs q) 8640000000000000
      then Some (Z.quot (Qnum q) (Zpos (Qden q)))
      else None
  end.

Section WithRuntime.
Context {R : Runtime}.

(** [Number(v)]. *)
Definition Number (v : jsval) : number :=
  match v with
  | VUndef => NaN
  | VNull => Fin 0
  | VBool b => Fin (if b then 1 else 0)
  | VNum n => n
  | VStr s => string_to_number s
  | VDate None => NaN
  | VDate (Some t) => Fin (inject_Z t)
  end.

(** [new Date(v)], as the time value of the new object. *)
Definition new_Date (v : jsval) : option Z :=
  match v with
  | VStr s => date_parse s
  | VDate t => t
  | _ => time_clip (Number v)
  end.
End WithRuntime.

End Js.

(** ** A runtime for evaluating examples

    It reads unsigned decimal integers as numbers and timestamps in the
    format written by [Date.prototype.toISOString]
    ([YYYY-MM-DDTHH:mm:ss.sssZ]); identifiers of the store are the strings
    of 24 hexadecimal digits. Everything else is [NaN] or an Invalid Date.
    No property below depends on it. *)

Module ExampleRuntime.
Import Js.
Local Open Scope Z_scope.

Definition digit (c : ascii) : option Z :=
  let n := Z.of_N (Ascii.N_of_ascii c) in
  if (48 <=? n) && (n <=? 57) then Some (n - 48) else None.

Fixpoint digits_from (acc : Z) (s : string) : option Z :=
  match s with
  | EmptyString => Some acc
  | String c s' =>
      match digit c with
      | Some d => digits_from (10 * acc + d) s'
      | None => None
      end
  end.

Definition decimal (s : string) : option Z :=
  match s with
  | EmptyString => None
  | _ => digits_from 0 s
  end.

Definition string_to_number (s : string) : number :=
  match s with
  | EmptyString => Fin 0
  | _ => match decimal s with Some z => Fin (inject_Z z) | None => NaN end
  end.

Fixpoint digits_of (fuel : nat) (z : Z) (acc : string) : string :=
  match fuel with
  | O => acc
  | S fuel' =>
      let acc' := String (Ascii.ascii_of_N (Z.to_N (48 + z mod 10))) acc in
      if z <? 10 then acc' else digits_of fuel' (z / 10) acc'
  end.

(** Integers print in decimal; other numbers print as their integer part. *)
Definition number_to_string (q : Q) : string :=
  let z := Z.quot (Qnum q) (Zpos (Qden q)) in
  if z <? 0 then String "-" (digits_of 400 (- z) EmptyString)
  else digits_of 400 z EmptyString.

Definition is_leap (y : Z) : bool :=
  ((y mod 4 =? 0) && negb (y mod 100 =? 0)) || (y mod 400 =? 0).

Definition days_in_month (y m : Z) : Z :=
  if m =? 2 then (if is_leap y then 29 else 28)
  else if (m =? 4) || (m =? 6) || (m =? 9) || (m =? 11) then 30
  else 31.

(** Days from 1970-01-01 to the given civil date. *)
Definition days_from_civil (y m d : Z) : Z :=
  let y' := if m <=? 2 then y - 1 else y in
  let era := y' / 400 in
  let yoe := y' - era * 400 in
  let doy := (153 * (if 2 <? m then m - 3 else m + 9) + 2) / 5 + d - 1 in
  let doe := yoe * 365 + yoe / 4 - yoe / 100 + doy in
  era * 146097 + doe - 719468.

Definition sub (start len : nat) (s : string) : string :=
  String.substring start len s.

Definition date_parse (s : string) : option Z :=
  if negb (Nat.eqb (String.length s) 24) then None
  else if negb (String.eqb (sub 4 1 s) "-" && String.eqb (sub 7 1 s) "-"
                && String.eqb (sub 10 1 s) "T" && String.eqb (sub 13 1 s) ":"
                && String.eqb (sub 16 1 s) ":" && String.eqb (sub 19 1 s) "."
                && String.eqb (sub 23 1 s) "Z") then None
  else
    match decimal (sub 0 4 s), decimal (sub 5 2 s), decimal (sub 8 2 s),
          decimal (sub 11 2 s), decimal (sub 14 2 s), decimal (sub 17 2 s),
          decimal (sub 20 3 s) with
    | Some y, Some m, Some d, Some hh, Some mm, Some ss, Some ms =>
        if (1 <=? m) && (m <=? 12) && (1 <=? d) && (d <=? days_in_month y m)
           && (hh <? 24) && (mm <? 60) && (ss <? 60)
        then Some ((((days_from_civil y m d * 24 + hh) * 60 + mm) * 60 + ss)
                   * 1000 + ms)
        else None
    | _, _, _, _, _, _, _ => None
    end.

Definition hex_digit (c : ascii) : bool :=
  let n := Z.of_N (Ascii.N_of_ascii c) in
  ((48 <=? n) && (n <=? 57)) || ((97 <=? n) && (n <=? 102))
  || ((65 <=? n) && (n <=? 70)).

Definition is_object_id (s : string) : bool :=
  Nat.eqb (String.length s) 24 && forallb hex_digit (list_ascii_of_string s).

Definition runtime : Runtime :=
  {| Js.string_to_number := string_to_number;
     Js.number_to_string := number_to_string;
     Js.date_parse := date_parse;
     Js.is_object_id := is_object_id |}.
End ExampleRuntime.

(** ** Coordinate engine ([TimelineTaskManager], view fields) *)

Module Coord.
Local Open Scope Q_scope.

(** The fields of [TimelineTaskManager] read by the coordinate functions.
    [currentTime] is the value of [this.currentTime.getTime()]. *)
Record View := mkView {
  currentTime : Q;
  timelineOffset : Q;
  zoomLevel : Q;
  pixelsPerHour : Q
}.

(** The constructor: [zoomLevel = 1], [pixelsPerHour = 120],
    [timelineOffset = 0]. *)
Definition init (now : Q) : View :=
  {| currentTime := now; timelineOffset := 0; zoomLevel := 1;
     pixelsPerHour := 120 |}.

Definition timeToX (v : View) (timestamp containerWidth : Q) : Q :=
  let centerTime := currentTime v + timelineOffset v in
  let timeDiff := timestamp - centerTime in
  let pixelsPerHour := pixelsPerHour v * zoomLevel v in
  containerWidth / 2 + (timeDiff / 3600000) * pixelsPerHour.

Definition xToTime (v : View) (x containerWidth : Q) : Q :=
  let centerTime := currentTime v + timelineOffset v in
  let pixelsPerHour := pixelsPerHour v * zoomLevel v in
  let timeDiff := (x - containerWidth / 2) / pixelsPerHour * 3600000 in
  centerTime + timeDiff.

Definition jumpToCurrentTime (v : View) : View :=
  {| currentTime := currentTime v; timelineOffset := 0;
     zoomLevel := zoomLevel v; pixelsPerHour := pixelsPerHour v |}.

Definition zoomIn (v : View) : View :=
  {| currentTime := currentTime v; timelineOffset := timelineOffset v;
     zoomLevel := Qmin (zoomLevel v * 1.5) 5;
     pixelsPerHour := pixelsPerHour v |}.

Definition zoomOut (v : View) : View :=
  {| currentTime := currentTime v; timelineOffset := timelineOffset v;
     zoomLevel := Qmax (zoomLevel v / 1.5) 0.2;
     pixelsPerHour := pixelsPerHour v |}.

(** [handleTimeUpdate] and the one-second interval of
    [startRealtimeUpdates]: [this.currentTime = new Date(...)]. *)
Definition setCurrentTime (now : Q) (v : View) : View :=
  {| currentTime := now; timelineOffset := timelineOffset v;
     zoomLevel := zoomLevel v; pixelsPerHour := pixelsPerHour v |}.

(** One frame of [startAnimationLoop]; [dateNow] is [Date.now()]. *)
Definition animate (dateNow : Q) (v : View) : View :=
  let timeSinceStart := dateNow - currentTime v in
  if Qlt_le_dec 60000 (Qabs timeSinceStart)
  then {| currentTime := currentTime v;
          timelineOffset := timelineOffset v - timeSinceStart * 0.1;
          zoomLevel := zoomLevel v; pixelsPerHour := pixelsPerHour v |}
  else v.

(** Everything that writes a view field. *)
Inductive command :=
| JumpToNow
| ZoomIn
| ZoomOut
| TimeUpdate (now : Q)
| Frame (dateNow : Q).

Definition exec (v : View) (c : command) : View :=
  match c with
  | JumpToNow => jumpToCurrentTime v
  | ZoomIn => zoomIn v
  | ZoomOut => zoomOut v
  | TimeUpdate now => setCurrentTime now v
  | Frame dateNow => animate dateNow v
  end.

Definition run (cs : list command) (v : View) : View := foldl exec v cs.

(** A configuration the constructor and the commands can produce:
    the zoom factor lies in [[0.2, 5]] and the base scale is positive. *)
Definition valid (v : View) : Prop :=
  0.2 <= zoomLevel v /\ zoomLevel v <= 5 /\ 0 < pixelsPerHour v.
End Coord.

(** ** Reconnection supervisor ([WebSocketService]) *)

Module Reconnect.
Local Open Scope Z_scope.

Record WebSocketService := mkWS {
  reconnectAttempts : Z;
  maxReconnectAttempts : Z;
  reconnectDelay : Z;
  isConnected : bool
}.

(** What a handler asks of its environment. *)
Inductive effect :=
| SetTimeout (delay : Z)     (* setTimeout(() => this.connect(), delay) *)
| Send (type : string).      (* this.send({ type }) *)

Definition constructor : WebSocketService :=
  {| reconnectAttempts := 0; maxReconnectAttempts := 5;
     reconnectDelay := 1000; isConnected := false |}.

Definition attemptReconnect (ws : WebSocketService)
  : WebSocketService * list effect :=
  if reconnectAttempts ws <? maxReconnectAttempts ws then
    let ws' := {| reconnectAttempts := reconnectAttempts ws + 1;
                  maxReconnectAttempts := maxReconnectAttempts ws;
                  reconnectDelay := reconnectDelay ws;
                  isConnected := isConnected ws |} in
    (ws', [SetTimeout (reconnectDelay ws' * reconnectAttempts ws')])
  else (ws, []).

Definition set_isConnected (b : bool) (ws : WebSocketService) :=
  {| reconnectAttempts := reconnectAttempts ws;
     maxReconnectAttempts := maxReconnectAttempts ws;
     reconnectDelay := reconnectDelay ws; isConnected := b |}.

(** The callbacks installed by [connect], and the [catch] of [connect]
    itself when [new WebSocket(url)] throws. *)
Inductive event := OnOpen | OnClose | OnError | ConnectThrows.

Definition handle (ws : WebSocketService) (e : event)
  : WebSocketService * list effect :=
  match e with
  | OnOpen =>
      ({| reconnectAttempts := 0;
          maxReconnectAttempts := maxReconnectAttempts ws;
          reconnectDelay := reconnectDelay ws; isConnected := true |},
       [Send "timeline:sync"])
  | OnClose => attemptReconnect (set_isConnected false ws)
  | OnError => (set_isConnected false ws, [])
  | ConnectThrows => attemptReconnect ws
  end.

(** Run a sequence of callbacks, collecting the effects in order. *)
Fixpoint run (es : list event) (ws : WebSocketService)
  : WebSocketService * list effect :=
  match es with
  | [] => (ws, [])
  | e :: es' =>
      let '(ws1, out1) := handle ws e in
      let '(ws2, out2) := run es' ws1 in
      (ws2, out1 ++ out2)
  end.

(** The two constants as the constructor sets them; nothing writes them
    again. *)
Definition configured (ws : WebSocketService) : Prop :=
  maxReconnectAttempts ws = 5 /\ reconnectDelay ws = 1000.

(** The delays of the timers among a list of effects. *)
Definition delays (out : list effect) : list Z :=
  omap (fun e => match e with SetTimeout d => Some d | Send _ => None end) out.
End Reconnect.

(** ** The server ([server.js]) *)

Module Server.
Import Js.

(** A stored task document, as [taskSchema] shapes it. The three required
    paths always hold a value; the others may hold [null]. *)
Record Task := mkTask {
  _id : string;
  title : string;
  startTime : Z;
  duration : Q;
  color : option string;
  status : option string;
  userId : option string;
  createdAt : Z;
  updatedAt : Z
}.

(** *** Schema casting and validation (mongoose) *)

Inductive cast_result (A : Type) :=
| Cast (v : option A)      (* the cast value; [None] is [null] *)
| CastError.
Arguments Cast {A} v.
Arguments CastError {A}.

Inductive kind := Required | Enum | CastFailed.

Inductive error :=
| ValidationError (errors : list (string * kind))
| CastErrorAt (path : string)
| DuplicateKey.

Inductive field (A : Type) :=
| Valid (v : A)
| Invalid (k : kind).
Arguments Valid {A} v.
Arguments Invalid {A} k.

Definition errors_of {A} (path : string) (f : field A) : list (string * kind) :=
  match f with
  | Valid _ => []
  | Invalid k => [(path, k)]
  end.

Definition status_enum : list string := ["pending"; "in-progress"; "completed"].

Section WithRuntime.
Context {R : Runtime}.

(** [type: String]. *)
Definition castString (v : option json) : cast_result string :=
  match v with
  | None | Some JNull => Cast None
  | Some (JStr s) => Cast (Some s)
  | Some (JNum q) => Cast (Some (number_to_string q))
  | Some (JBool b) => Cast (Some (if b then "true" else "false"))
  end.

(** [type: Number]. *)
Definition castNumber (v : option json) : cast_result Q :=
  match v with
  | None | Some JNull => Cast None
  | Some (JNum q) => Cast (Some q)
  | Some (JBool b) => Cast (Some (if b then 1%Q else 0%Q))
  | Some (JStr s) =>
      if String.eqb s "" then Cast None
      else match string_to_number s with
           | Fin q => Cast (Some q)
           | NaN => CastError
           end
  end.

(** [type: Date]. A string that reads as a number outside the range of
    years is taken as milliseconds, any other string as a date. *)
Definition castDate (v : option json) : cast_result Z :=
  let checked (t : option Z) : cast_result Z :=
    match t with Some ms => Cast (Some ms) | None => CastError end in
  match v with
  | None | Some JNull => Cast None
  | Some (JBool _) => CastError
  | Some (JNum q) => checked (time_clip (Fin q))
  | Some (JStr s) =>
      if String.eqb s "" then Cast None
      else match string_to_number s with
           | Fin q =>
               if Qle_bool 275761%Q q || negb (Qle_bool (-271820)%Q q)
               then checked (time_clip (Fin q))
               else checked (date_parse s)
           | NaN => checked (date_parse s)
           end
  end.

(** A path with [required: true]. For strings the empty string counts as
    missing. *)
Definition required {A} (empty : A -> bool) (c : cast_result A) : field A :=
  match c with
  | CastError => Invalid CastFailed
  | Cast None => Invalid Required
  | Cast (Some v) => if empty v then Invalid Required else Valid v
  end.

(** A path that is not required. *)
Definition optional {A} (c : cast_result A) : field (option A) :=
  match c with
  | CastError => Invalid CastFailed
  | Cast v => Valid v
  end.

(** A path with a default, which replaces [undefined] only. *)
Definition with_default {A} (dflt : A) (present : bool) (c : cast_result A)
  : field (option A) :=
  if present then optional c else Valid (Some dflt).

(** [enum: [...]]: [null] passes. *)
Definition enum (values : list string) (f : field (option string))
  : field (option string) :=
  match f with
  | Valid (Some s) =>
      if existsb (String.eqb s) values then f else Invalid Enum
  | _ => f
  end.

Definition is_empty_string (s : string) : bool := String.eqb s "".
Definition never {A} (_ : A) : bool := false.
Definition present (data : gmap string json) (k : string) : bool :=
  bool_decide (is_Some (data !! k)).

Definition title_field (data : gmap string json) : field string :=
  required is_empty_string (castString (data !! "title")).
Definition startTime_field (data : gmap string json) : field Z :=
  required never (castDate (data !! "startTime")).
Definition duration_field (data : gmap string json) : field Q :=
  required never (castNumber (data !! "duration")).
Definition color_field (data : gmap string json) : field (option string) :=
  with_default "#3B82F6" (present data "color") (castString (data !! "color")).
Definition status_field (data : gmap string json) : field (option string) :=
  enum status_enum
    (with_default "pending" (present data "status")
                  (castString (data !! "status"))).
Definition userId_field (data : gmap string json) : field (option string) :=
  with_default "default" (present data "userId") (castString (data !! "userId")).

(** [new Task(taskData)] followed by the validation that [save] runs:
    the document, or the errors of all failing paths. [oid] is the fresh
    identifier given to the document and [now] the clock that stamps it. *)
Definition new_Task (now : Z) (oid : string) (data : gmap string json)
  : Task + error :=
  match title_field data, startTime_field data, duration_field data,
        color_field data, status_field data, userId_field data with
  | Valid t, Valid s, Valid d, Valid c, Valid st, Valid u =>
      inl {| _id := oid; title := t; startTime := s; duration := d;
             color := c; status := st; userId := u;
             createdAt := now; updatedAt := now |}
  | ft, fs, fd, fc, fst, fu =>
      inr (ValidationError
             (errors_of "title" ft ++ errors_of "startTime" fs
              ++ errors_of "duration" fd ++ errors_of "color" fc
              ++ errors_of "status" fst ++ errors_of "userId" fu))
  end.

Definition findById (id : string) (db : list Task) : option Task :=
  List.find (fun t => String.eqb (_id t) id) db.

(** [task.save()]: validation, then insertion; the store refuses a second
    document with the same [_id]. *)
Definition save (db : list Task) (t : Task + error) : (Task * list Task) + error :=
  match t with
  | inr e => inr e
  | inl task =>
      match findById (_id task) db with
      | Some _ => inr DuplicateKey
      | None => inl (task, db ++ [task])
      end
  end.

(** One path of an update: untouched when the body does not name it. *)
Definition change {A} (data : gmap string json) (k : string) (f : field A)
  : option (field A) :=
  if present data k then Some f else None.

Definition apply_change {A} (old : A) (c : option (field A)) : A :=
  match c with
  | Some (Valid v) => v
  | _ => old
  end.

Definition change_errors {A} (path : string) (c : option (field A))
  : list (string * kind) :=
  match c with
  | Some f => errors_of path f
  | None => []
  end.

Definition is_cast_error (e : string * kind) : bool :=
  match e.2 with CastFailed => true | _ => false end.

(** [Task.findByIdAndUpdate(id, body, { new: true, runValidators: true })]:
    a cast error or a failing validator throws; otherwise the named paths of
    the document with that [_id] are set and the updated document is the
    result, or [null] (here [None]) when there is none. *)
Definition findByIdAndUpdate (now : Z) (id : string) (body : gmap string json)
    (db : list Task) : option (Task * list Task) + error :=
  if negb (is_object_id id) then inr (CastErrorAt "_id") else
  let ct := change body "title" (title_field body) in
  let cs := change body "startTime" (startTime_field body) in
  let cd := change body "duration" (duration_field body) in
  let cc := change body "color" (optional (castString (body !! "color"))) in
  let cst := change body "status"
               (enum status_enum (optional (castString (body !! "status")))) in
  let cu := change body "userId" (optional (castString (body !! "userId"))) in
  let errs := change_errors "title" ct ++ change_errors "startTime" cs
              ++ change_errors "duration" cd ++ change_errors "color" cc
              ++ change_errors "status" cst ++ change_errors "userId" cu in
  match List.find is_cast_error errs with
  | Some (path, _) => inr (CastErrorAt path)
  | None =>
      match errs with
      | _ :: _ => inr (ValidationError errs)
      | [] =>
          match findIndex (fun t => String.eqb (_id t) id) db with
          | None => inl None
          | Some i =>
              match db !! i with
              | None => inl None
              | Some old =>
                  let task :=
                    {| _id := _id old;
                       title := apply_change (title old) ct;
                       startTime := apply_change (startTime old) cs;
                       duration := apply_change (duration old) cd;
                       color := apply_change (color old) cc;
                       status := apply_change (status old) cst;
                       userId := apply_change (userId old) cu;
                       createdAt := createdAt old;
                       updatedAt := now |} in
                  inl (Some (task, <[i := task]> db))
              end
          end
      end
  end.

(** [Task.findByIdAndDelete(id)]. *)
Definition findByIdAndDelete (id : string) (db : list Task)
  : option (Task * list Task) + error :=
  if negb (is_object_id id) then inr (CastErrorAt "_id") else
  match findIndex (fun t => String.eqb (_id t) id) db with
  | None => inl None
  | Some i =>
      match db !! i with
      | None => inl None
      | Some old => inl (Some (old, delete i db))
      end
  end.
End WithRuntime.

(** *** Connections and broadcast *)

Inductive ReadyState := CONNECTING | OPEN | CLOSING | CLOSED.

(** What a broadcast carries: a task object, with the [tempId] property when
    the handler set one, or an object holding an [id] only. *)
Inductive payload :=
| TaskData (task : Task) (tempId : option json)
| IdData (id : string).

Record Message := mkMessage {
  type : string;
  data : payload
}.

(** A registered socket and what has been sent on it. *)
Record Client := mkClient {
  socket : nat;
  readyState : ReadyState;
  sent : list Message
}.

(** The database, the [clients] set, and the log of calls of [broadcast]. *)
Record State := mkState {
  db : list Task;
  clients : list Client;
  published : list Message
}.

Definition is_open (c : Client) : bool :=
  match readyState c with OPEN => true | _ => false end.

Definition send (m : Message) (c : Client) : Client :=
  {| socket := socket c; readyState := readyState c; sent := sent c ++ [m] |}.

(** The loop of [broadcast]: the message goes once to every registered
    socket that is open. *)
Definition deliver (message : Message) (cs : list Client) : list Client :=
  (fun client => if is_open client then send message client else client) <$> cs.

Definition broadcast (type : string) (data : payload) (st : State) : State :=
  let message := {| type := type; data := data |} in
  {| db := db st;
     clients := deliver message (clients st);
     published := published st ++ [message] |}.

Definition set_db (db' : list Task) (st : State) : State :=
  {| db := db'; clients := clients st; published := published st |}.

(** [wss.on('connection')] and the socket's [close] handler. *)
Definition on_connection (ws : nat) (st : State) : State :=
  {| db := db st;
     clients := if existsb (fun c => Nat.eqb (socket c) ws) (clients st)
                then clients st
                else clients st ++ [{| socket := ws; readyState := OPEN;
                                       sent := [] |}];
     published := published st |}.

Definition on_close (ws : nat) (st : State) : State :=
  {| db := db st;
     clients := filter (fun c => socket c <> ws) (clients st);
     published := published st |}.

(** *** Routes *)

Inductive response :=
| Created (task : Task)        (* 201, the document *)
| Ok (task : Task)             (* 200, the document *)
| Deleted                      (* 200, { message: 'Task deleted successfully' } *)
| NotFound                     (* 404, { error: 'Task not found' } *)
| BadRequest (e : error)       (* 400, { error: error.message } *)
| InternalError (e : error).   (* 500, { error: error.message } *)

Section Routes.
Context {R : Runtime}.

(** [app.post('/api/tasks')]. *)
Definition post_tasks (now : Z) (oid : string) (body : gmap string json)
    (st : State) : response * State :=
  let tempId := body !! "tempId" in
  let taskData := delete "tempId" body in
  match save (db st) (new_Task now oid taskData) with
  | inr e => (BadRequest e, st)
  | inl (task, db') =>
      let taskResponse :=
        TaskData task (if truthy (prop body "tempId") then tempId else None) in
      (Created task, broadcast "task:created" taskResponse (set_db db' st))
  end.

(** [app.put('/api/tasks/:id')]. *)
Definition put_tasks (now : Z) (id : string) (body : gmap string json)
    (st : State) : response * State :=
  match findByIdAndUpdate now id body (db st) with
  | inr e => (BadRequest e, st)
  | inl None => (NotFound, st)
  | inl (Some (task, db')) =>
      (Ok task, broadcast "task:updated" (TaskData task None) (set_db db' st))
  end.

(** [app.delete('/api/tasks/:id')]. *)
Definition delete_tasks (id : string) (st : State) : response * State :=
  match findByIdAndDelete id (db st) with
  | inr e => (InternalError e, st)
  | inl None => (NotFound, st)
  | inl (Some (_, db')) =>
      (Deleted, broadcast "task:deleted" (IdData id) (set_db db' st))
  end.

Inductive request :=
| POST (now : Z) (oid : string) (body : gmap string json)
| PUT (now : Z) (id : string) (body : gmap string json)
| DELETE (id : string).

Definition serve (rq : request) (st : State) : response * State :=
  match rq with
  | POST now oid body => post_tasks now oid body st
  | PUT now id body => put_tasks now id body st
  | DELETE id => delete_tasks id st
  end.

Definition succeeded (r : response) : bool :=
  match r with
  | Created _ | Ok _ | Deleted => true
  | _ => false
  end.
End Routes.

End Server.

(** ** The client ([app.js]: [APIService], [TimelineTaskManager]) *)

Module Client.
Import Js.

(** The fields of [TimelineTaskManager] that the synchronisation code reads
    and writes; [pendingCreations] is the set held by its [apiService].
    [selectedTask] and [editingTask] refer to task objects; only their
    [_id], which is never reassigned, is read through them, so each is kept
    as the object's value. *)
Record Manager := mkManager {
  tasks : list (gmap string jsval);
  selectedTask : option (gmap string jsval);
  editingTask : option (gmap string jsval);
  pendingCreations : gset string
}.

Definition constructor : Manager :=
  {| tasks := []; selectedTask := None; editingTask := None;
     pendingCreations := ∅ |}.

Definition set_tasks (l : list (gmap string jsval)) (m : Manager) : Manager :=
  {| tasks := l; selectedTask := selectedTask m;
     editingTask := editingTask m; pendingCreations := pendingCreations m |}.

Definition set_selectedTask (o : option (gmap string jsval)) (m : Manager) :=
  {| tasks := tasks m; selectedTask := o;
     editingTask := editingTask m; pendingCreations := pendingCreations m |}.

Definition set_editingTask (o : option (gmap string jsval)) (m : Manager) :=
  {| tasks := tasks m; selectedTask := selectedTask m;
     editingTask := o; pendingCreations := pendingCreations m |}.

Definition set_pendingCreations (s : gset string) (m : Manager) : Manager :=
  {| tasks := tasks m; selectedTask := selectedTask m;
     editingTask := editingTask m; pendingCreations := s |}.

(** [set.has(v)] and [set.delete(v)] on a set that holds strings only. *)
Definition has (s : gset string) (v : jsval) : bool :=
  match v with
  | VStr x => bool_decide (x ∈ s)
  | _ => false
  end.

Definition remove (s : gset string) (v : jsval) : gset string :=
  match v with
  | VStr x => s ∖ {[x]}
  | _ => s
  end.

(** The identifier test [t => t._id === id] of every [findIndex]. *)
Definition has_id (id : jsval) (t : gmap string jsval) : bool :=
  strict_eq (get t "_id") id.

(** The template [temp-${Date.now()}-${Math.random()...}]. *)
Definition mkTempId (now rnd : string) : string :=
  ("temp-" ++ now ++ "-" ++ rnd)%string.

Section WithRuntime.
Context {R : Runtime}.

Definition normalizeTask (task : gmap string json) : gmap string jsval :=
  <["duration" := VNum (Number (prop task "duration"))]>
  (<["startTime" := VDate (new_Date (prop task "startTime"))]>
  (<["_id" := logical_or (prop task "_id") (prop task "id")]>
  (<["id" := logical_or (prop task "_id") (prop task "id")]>
  (of_json <$> task)))).

Definition handleTaskCreated (task : gmap string json) (m : Manager) : Manager :=
  match findIndex (has_id (prop task "_id")) (tasks m) with
  | None => set_tasks (tasks m ++ [normalizeTask task]) m
  | Some _ => m
  end.

Definition handleTaskUpdated (task : gmap string json) (m : Manager) : Manager :=
  match findIndex (has_id (prop task "_id")) (tasks m) with
  | Some index => set_tasks (<[index := normalizeTask task]> (tasks m)) m
  | None => m
  end.

Definition handleTaskDeleted (data : gmap string json) (m : Manager) : Manager :=
  match findIndex (has_id (prop data "id")) (tasks m) with
  | Some index =>
      let m' := set_tasks (splice1 index (tasks m)) m in
      match selectedTask m with
      | Some sel =>
          if has_id (prop data "id") sel then set_selectedTask None m' else m'
      | None => m'
      end
  | None => m
  end.

Record WsMessage := mkWsMessage {
  type : string;
  data : gmap string json
}.

(** [handleTimeUpdate] writes [currentTime] only (see [Coord]); the last
    two cases only log. *)
Definition handleWebSocketMessage (msg : WsMessage) (m : Manager) : Manager :=
  if String.eqb (type msg) "task:created" then
    if truthy (prop (data msg) "tempId")
       && has (pendingCreations m) (prop (data msg) "tempId")
    then set_pendingCreations
           (remove (pendingCreations m) (prop (data msg) "tempId")) m
    else handleTaskCreated (data msg) m
  else if String.eqb (type msg) "task:updated" then
    handleTaskUpdated (data msg) m
  else if String.eqb (type msg) "task:deleted" then
    handleTaskDeleted (data msg) m
  else m.

(** [loadTasksFromAPI], once [getAllTasks] has answered. *)
Definition loadTasksFromAPI_resolved (l : list (gmap string json)) (m : Manager) :=
  set_tasks (normalizeTask <$> l) m.

(** [APIService.createTask] up to its request, and its two ways out. *)
Definition createTask_started (tempId : string) (m : Manager) : Manager :=
  set_pendingCreations ({[tempId]} ∪ pendingCreations m) m.

Definition createTask_settled (tempId : string) (m : Manager) : Manager :=
  set_pendingCreations (pendingCreations m ∖ {[tempId]}) m.

(** [saveTaskToAPI], creation branch, after [createTask] has answered with
    [newTask]. *)
Definition saveTaskToAPI_created (tempId : string) (newTask : gmap string json)
    (m : Manager) : Manager :=
  let m1 := createTask_settled tempId m in
  match findIndex (has_id (prop newTask "_id")) (tasks m1) with
  | None => set_tasks (tasks m1 ++ [normalizeTask newTask]) m1
  | Some _ => m1
  end.

(** [saveTaskToAPI], update branch, after [updateTask] has answered.
    Reading [this.editingTask._id] throws when the modal was closed in the
    meantime, which leaves the cache as it is. *)
Definition saveTaskToAPI_updated (updatedTask : gmap string json) (m : Manager)
  : Manager :=
  match editingTask m with
  | Some editing =>
      match findIndex (has_id (get editing "_id")) (tasks m) with
      | Some index => set_tasks (<[index := normalizeTask updatedTask]> (tasks m)) m
      | None => m
      end
  | None => m
  end.

(** [deleteTaskFromAPI], after [deleteTask] has answered. *)
Definition deleteTaskFromAPI_resolved (taskId : jsval) (m : Manager) : Manager :=
  let m1 :=
    match findIndex (has_id taskId) (tasks m) with
    | Some index => set_tasks (splice1 index (tasks m)) m
    | None => m
    end in
  match selectedTask m1 with
  | Some sel => if has_id taskId sel then set_selectedTask None m1 else m1
  | None => m1
  end.

(** [onMouseMove] while dragging the task object found at position [i] of
    the array (a position past the end stands for a dragged object that is
    no longer in the array): its [startTime] is replaced by a new [Date]. *)
Definition onMouseMove (i : nat) (timeDelta : Q) (m : Manager) : Manager :=
  match tasks m !! i with
  | Some dragTask =>
      match get dragTask "startTime" with
      | VDate t =>
          let newStartTime :=
            time_clip (match t with
                       | Some ms => Fin (inject_Z ms + timeDelta)
                       | None => NaN
                       end) in
          set_tasks (<[i := <["startTime" := VDate newStartTime]> dragTask]>
                       (tasks m)) m
      | _ => m
      end
  | None => m
  end.

(** Everything that happens to a manager. *)
Inductive event :=
| LoadResolved (l : list (gmap string json))
| LoadRejected
| CreateStarted (now rnd : string)
| CreateResolved (tempId : string) (newTask : gmap string json)
| CreateRejected (tempId : string)
| UpdateResolved (updatedTask : gmap string json)
| DeleteResolved (taskId : jsval)
| Received (msg : WsMessage)
| Click (i : nat)
| OpenTaskModal (i : option nat)
| CloseTaskModal
| MouseMove (i : nat) (timeDelta : Q).

Definition step (m : Manager) (e : event) : Manager :=
  match e with
  | LoadResolved l => loadTasksFromAPI_resolved l m
  | LoadRejected => m
  | CreateStarted now rnd => createTask_started (mkTempId now rnd) m
  | CreateResolved tempId newTask => saveTaskToAPI_created tempId newTask m
  | CreateRejected tempId => createTask_settled tempId m
  | UpdateResolved updatedTask => saveTaskToAPI_updated updatedTask m
  | DeleteResolved taskId => deleteTaskFromAPI_resolved taskId m
  | Received msg => handleWebSocketMessage msg m
  | Click i =>
      match tasks m !! i with
      | Some task => set_selectedTask (Some task) m
      | None => m
      end
  | OpenTaskModal None => set_editingTask None m
  | OpenTaskModal (Some i) =>
      match tasks m !! i with
      | Some task => set_editingTask (Some task) m
      | None => m
      end
  | CloseTaskModal => set_editingTask None m
  | MouseMove i timeDelta => onMouseMove i timeDelta m
  end.

Definition run (es : list event) (m : Manager) : Manager := foldl step m es.
End WithRuntime.

(** The form values read by [saveTask], after [trim], [new Date] and
    [parseInt]. *)
Record TaskData := mkTaskData {
  title : string;
  startTime : option Z;
  duration : number;
  color : string;
  status : string
}.

Inductive saveTask_outcome :=
| ShowError (message focus : string)   (* showError(message); focus; return *)
| Save (taskData : TaskData).          (* goes on to saveTaskToAPI(taskData) *)

Definition lt15 (n : number) : bool :=
  match n with
  | NaN => false
  | Fin q => negb (Qle_bool 15 q)
  end.

Definition isNaN (n : number) : bool :=
  match n with NaN => true | Fin _ => false end.

(** The validation block of [saveTask]. *)
Definition saveTask_validation (taskData : TaskData) : saveTask_outcome :=
  if String.eqb (title taskData) "" then
    ShowError "Please enter a task title" "taskTitle"
  else if bool_decide (startTime taskData = None) then
    ShowError "Please enter a valid start time" "taskStartTime"
  else if isNaN (duration taskData) || lt15 (duration taskData) then
    ShowError "Task duration must be at least 15 minutes" "taskDuration"
  else Save taskData.

(** *** Properties of a cache *)

(** What [normalizeTask] establishes for an object. *)
Definition normalized (t : gmap string jsval) : Prop :=
  (exists v, t !! "id" = Some v /\ t !! "_id" = Some v) /\
  (exists d, t !! "startTime" = Some (VDate d)) /\
  (exists n, t !! "duration" = Some (VNum n)).

(** The object was made by [normalizeTask]; its [startTime] may have been
    replaced by another [Date] since (dragging). *)
Definition from_normalizeTask {R : Runtime} (t : gmap string jsval) : Prop :=
  exists task d, t = <["startTime" := VDate d]> (normalizeTask task).

(** No two entries of the array have the same [_id]. *)
Fixpoint ids_unique (l : list (gmap string jsval)) : bool :=
  match l with
  | [] => true
  | t :: l' => negb (existsb (has_id (get t "_id")) l') && ids_unique l'
  end.

(** The number of entries with a given [_id]. *)
Definition count_id (id : jsval) (l : list (gmap string jsval)) : nat :=
  length (List.filter (has_id id) l).
Global Arguments count_id : simpl never.

(** What the store and the server guarantee about an event: every task
    record carries a truthy [_id], a list of tasks has no two records with
    the same identifier, and the answer to an update is the record of the
    task being edited. *)
Definition expected {R : Runtime} (m : Manager) (e : event) : Prop :=
  match e with
  | LoadResolved l => ids_unique (normalizeTask <$> l) = true
  | CreateResolved _ newTask => truthy (prop newTask "_id") = true
  | UpdateResolved updatedTask =>
      truthy (prop updatedTask "_id") = true /\
      forall editing, editingTask m = Some editing ->
                      has_id (prop updatedTask "_id") editing = true
  | Received msg =>
      String.eqb (type msg) "task:deleted" = true \/
      truthy (prop (data msg) "_id") = true
  | _ => True
  end.
End Client.

(** ** Sample data for the examples *)

Module Samples.
Import Js.

(** A task as the store serialises it. *)
Definition wire_task (id title : string) (minutes : Q) : gmap string json :=
  <["_id" := JStr id]>
  (<["title" := JStr title]>
  (<["startTime" := JStr "2025-01-01T09:00:00.000Z"]>
  (<["duration" := JNum minutes]>
  (<["color" := JStr "#3B82F6"]>
  (<["status" := JStr "pending"]>
  (<["userId" := JStr "default"]> ∅)))))).

Definition standup : gmap string json :=
  wire_task "65a1b2c3d4e5f60718293a4b" "Standup" 15.

Definition review : gmap string json :=
  wire_task "65a1b2c3d4e5f60718293a4c" "Review" 60.

Definition token : string := Client.mkTempId "1735722000000" "k3j9x0a1b".

(** The broadcast of a creation made with [token]. *)
Definition echo : gmap string json := <["tempId" := JStr token]> standup.

(** A client that has loaded one task, and one that has loaded two. *)
Definition loaded : Client.Manager :=
  Client.run (R := ExampleRuntime.runtime)
    [Client.LoadResolved [standup]] Client.constructor.

Definition loaded2 : Client.Manager :=
  Client.run (R := ExampleRuntime.runtime)
    [Client.LoadResolved [standup; review]; Client.Click 1] Client.constructor.

(** A server with one open and one closed socket and an empty store. *)
Definition sample_state : Server.State :=
  {| Server.db := [];
     Server.clients :=
       [ {| Server.socket := 1; Server.readyState := Server.OPEN;
            Server.sent := [] |};
         {| Server.socket := 2; Server.readyState := Server.CLOSED;
            Server.sent := [] |} ];
     Server.published := [] |}.

(** The body that the client sends for a new task. *)
Definition sample_body (t : string) (d : Q) : gmap string json :=
  <["title" := JStr t]>
  (<["startTime" := JStr "2025-01-01T09:00:00.000Z"]>
  (<["duration" := JNum d]>
  (<["color" := JStr "#3B82F6"]>
  (<["status" := JStr "pending"]>
  (<["tempId" := JStr token]> ∅))))).

Definition sample_task (d : Q) : Server.Task :=
  {| Server._id := "65a1b2c3d4e5f60718293a4b"; Server.title := "X";
     Server.startTime := 1735722000000; Server.duration := d;
     Server.color := Some "#3B82F6"; Server.status := Some "pending";
     Server.userId := Some "default";
     Server.createdAt := 1735722000123; Server.updatedAt := 1735722000123 |}.
End Samples.

(** ** The server's reads, registry and request sequences ([server.js]) *)

Module Queries.
Import Js Server.

(** Insertion of [x] after the elements whose key is smaller: a stable
    sort by an integer key (elements with the same key keep their order).
    The store does not fix the order of documents with the same start time;
    no property of the list route below depends on it. *)
Fixpoint insert_by {A} (key : A -> Z) (x : A) (l : list A) : list A :=
  match l with
  | [] => [x]
  | y :: l' =>
      if (key y <? key x)%Z then y :: insert_by key x l' else x :: y :: l'
  end.

Fixpoint sort_by {A} (key : A -> Z) (l : list A) : list A :=
  match l with
  | [] => []
  | x :: l' => insert_by key x (sort_by key l')
  end.

(** The filter that [app.get('/api/tasks')] builds from the query string. *)
Record Query := mkQuery {
  gte : option Z;            (* query.startTime.$gte *)
  lte : option Z;            (* query.startTime.$lte *)
  status_is : option string  (* query.status *)
}.

(** Truthiness of a query parameter: present and not the empty string. *)
Definition given (p : option string) : bool :=
  match p with
  | Some s => negb (String.eqb s "")
  | None => false
  end.

Inductive listing :=
| Listing (tasks : list Task)   (* 200, the documents *)
| ListingFailed (e : error).    (* 500, { error: error.message } *)

Section WithRuntime.
Context {R : Runtime}.

(** [new Date(p)] for a given parameter; an Invalid Date cannot be cast by
    the store and makes the query throw. *)
Definition bound (path : string) (p : option string) : option Z + error :=
  match p with
  | Some s =>
      if given p then
        match date_parse s with
        | Some t => inl (Some t)
        | None => inr (CastErrorAt path)
        end
      else inl None
  | None => inl None
  end.

Definition build_query (start end_ status : option string) : Query + error :=
  let status_is :=
    match status with
    | Some s => if given status && negb (String.eqb s "all") then Some s else None
    | None => None
    end in
  if given start || given end_ then
    match bound "startTime" start, bound "startTime" end_ with
    | inl lo, inl hi => inl {| gte := lo; lte := hi; status_is := status_is |}
    | inr e, _ => inr e
    | _, inr e => inr e
    end
  else inl {| gte := None; lte := None; status_is := status_is |}.

Definition matches (q : Query) (t : Task) : bool :=
  match gte q with Some lo => (lo <=? startTime t)%Z | None => true end
  && match lte q with Some hi => (startTime t <=? hi)%Z | None => true end
  && match status_is q with
     | Some s => match status t with
                 | Some s' => String.eqb s' s
                 | None => false
                 end
     | None => true
     end.

(** [app.get('/api/tasks')]:
    [Task.find(query).sort({ startTime: 1 })]. *)
Definition get_tasks (start end_ status : option string) (st : State) : listing :=
  match build_query start end_ status with
  | inr e => ListingFailed e
  | inl q => Listing (sort_by startTime (List.filter (matches q) (db st)))
  end.

(** [app.get('/api/tasks/:id')]. *)
Definition get_task (id : string) (st : State) : response :=
  if negb (is_object_id id) then InternalError (CastErrorAt "_id")
  else match findById id (db st) with
       | Some task => Ok task
       | None => NotFound
       end.

(** What happens to the server: a mutating request served to its end with
    no other callback in between (module [Interleaving] splits the handlers
    at their [await]), a socket connecting, a socket's [close] event, or
    the transport changing the [readyState] of a socket. *)
Inductive action :=
| Request (rq : request)
| Connect (ws : nat)
| Close (ws : nat)
| Transport (ws : nat) (rs : ReadyState).

Definition set_readyState (ws : nat) (rs : ReadyState) (st : State) : State :=
  {| db := db st;
     clients := (fun c => if Nat.eqb (socket c) ws
                          then {| socket := socket c; readyState := rs;
                                  sent := sent c |}
                          else c) <$> clients st;
     published := published st |}.

Definition act (st : State) (a : action) : State :=
  match a with
  | Request rq => (serve rq st).2
  | Connect ws => on_connection ws st
  | Close ws => on_close ws st
  | Transport ws rs => set_readyState ws rs st
  end.

Definition acts (l : list action) (st : State) : State := foldl act st l.

End WithRuntime.

(** What has been sent on socket [ws], if it is registered. *)
Definition sent_on (ws : nat) (st : State) : option (list Message) :=
  sent <$> List.find (fun c => Nat.eqb (socket c) ws) (clients st).

Definition registered (ws : nat) (st : State) : bool :=
  existsb (fun c => Nat.eqb (socket c) ws) (clients st).

(** No socket is registered twice. *)
Definition sockets_distinct (st : State) : Prop :=
  NoDup (socket <$> clients st).

(** The action is not a connection of socket [ws]. *)
Definition not_connect {R : Runtime} (ws : nat) (a : action) : bool :=
  match a with
  | Connect w => negb (Nat.eqb w ws)
  | _ => true
  end.

(** What validation lets into the store: a non-empty title and a status
    that is [null] or one of the three allowed values. *)
Definition task_ok (t : Task) : Prop :=
  title t <> "" /\ forall s, status t = Some s -> In s status_enum.

(** The body of an update names paths only: no key is an update operator
    ([$set], [$unset], [$min], [$rename], ...). The store reads such a body
    as the paths to set; [findByIdAndUpdate] of the model is the update for
    these bodies. *)
Definition plain (body : gmap string json) : bool :=
  forallb (fun k => negb (String.prefix "$" k)) (map_to_list body).*1.

Definition plain_update {R : Runtime} (a : action) : bool :=
  match a with
  | Request (PUT _ _ body) => plain body
  | _ => true
  end.

(** The order of [sort({ startTime: 1 })]. *)
Definition by_startTime (a b : Task) : Prop := (startTime a <= startTime b)%Z.
End Queries.

(** ** Timeline geometry ([renderTask], [drawCurrentTimeIndicator],
       [onMouseMove]) *)

Module Timeline.
Import Coord.
Local Open Scope Q_scope.

Record Box := mkBox {
  left : Q;
  top : Q;
  width : Q;
  height : Q
}.

Definition Qltb (a b : Q) : bool := negb (Qle_bool b a).

(** [renderTask] for a task with a valid start time (in milliseconds) and a
    numeric duration (in minutes) at position [index] of the array: the
    placement of its element, or [None] when the task is skipped as off
    screen. *)
Definition renderTask (v : View) (startTime duration : Q) (index : nat)
    (containerWidth : Q) : option Box :=
  let startX := timeToX v startTime containerWidth in
  let width := Qmax ((duration / 60) * pixelsPerHour v * zoomLevel v) 100 in
  let height := 40 in
  let y := 100 + inject_Z (Z.of_nat (index mod 6)) * 50 in
  if Qltb (startX + width) (-100) || Qltb (containerWidth + 100) startX
  then None
  else Some {| left := Qmax 0 startX; top := y; width := width;
               height := height |}.

(** The position of the current-time line in [drawCurrentTimeIndicator]. *)
Definition currentTimeIndicator (v : View) (containerWidth : Q) : Q :=
  timeToX v (currentTime v) containerWidth.

(** [timeDelta] of [onMouseMove] for a pointer movement of [deltaX]. *)
Definition timeDelta (v : View) (deltaX : Q) : Q :=
  let pixelsPerHour := pixelsPerHour v * zoomLevel v in
  (deltaX / pixelsPerHour) * 3600000.
End Timeline.

(** ** Histories of the reconnection supervisor *)

Module Backoff.
Import Reconnect.

(** The callbacks that go through [attemptReconnect]. *)
Definition reconnects (e : event) : bool :=
  match e with
  | OnClose | ConnectThrows => true
  | OnOpen | OnError => false
  end.

Definition opens (e : event) : bool :=
  match e with
  | OnOpen => true
  | _ => false
  end.

(** The number of callbacks of a history that go through
    [attemptReconnect]. *)
Definition failures (es : list event) : nat :=
  length (List.filter reconnects es).
End Backoff.

(** ** Requests of the client and records of the store *)

Module Wire.
Import Js Client.

(** A list of records as the store sends it: every record carries a truthy
    [_id] and no two records carry the same one. *)
Fixpoint records_distinct (l : list (gmap string json)) : bool :=
  match l with
  | [] => true
  | r :: l' =>
      truthy (prop r "_id")
      && negb (existsb (fun r' => strict_eq (prop r' "_id") (prop r "_id")) l')
      && records_distinct l'
  end.

(** The body of the request of [createTask]:
    [JSON.stringify({ ...taskData, tempId })]. A [Date] is written by its
    [toISOString], an Invalid Date and [NaN] as [null]. *)
Definition createTask_body (toISOString : Z -> string) (taskData : TaskData)
    (tempId : string) : gmap string json :=
  <["title" := JStr (title taskData)]>
  (<["startTime" := match startTime taskData with
                    | Some t => JStr (toISOString t)
                    | None => JNull
                    end]>
  (<["duration" := match duration taskData with
                   | Fin d => JNum d
                   | NaN => JNull
                   end]>
  (<["color" := JStr (color taskData)]>
  (<["status" := JStr (status taskData)]>
  (<["tempId" := JStr tempId]> ∅))))).
End Wire.

(** ** The server with its handlers split at [await] ([server.js])

    A route handler runs up to its [await] of the store operation and the
    rest of it ([broadcast] and the answer) runs when the promise settles;
    other callbacks of the server run in between, and two handlers need not
    resume in the order of their store operations. A socket also gets the
    frames of its own connection handler: [time:update] every second, [pong]
    and [timeline:synced]. *)

Module Interleaving.
Import Js.

(** A frame written on a socket by [send]. *)
Inductive frame :=
| Broadcast (message : Server.Message)   (* by [broadcast] *)
| TimeUpdate (currentTime : string)      (* by the interval of the connection *)
| Pong
| TimelineSynced (serverTime : string).

(** The rest of a route handler after its [await]: [broadcast] and the
    answer, or the answer alone (404, or the [catch] branch). *)
Inductive continuation :=
| Publish (answer : Server.response) (type : string) (data : Server.payload)
| Answer (answer : Server.response).

Record Socket := mkSocket {
  socket : nat;
  readyState : Server.ReadyState;
  frames : list frame
}.

(** The database, the [clients] set, the handlers suspended at their
    [await] whose store operation is done, the log of calls of [broadcast],
    and the answers given. *)
Record State := mkState {
  db : list Server.Task;
  clients : list Socket;
  suspended : list continuation;
  published : list Server.Message;
  answered : list Server.response
}.

Definition is_open (c : Socket) : bool :=
  match readyState c with Server.OPEN => true | _ => false end.

Definition send (f : frame) (c : Socket) : Socket :=
  {| socket := socket c; readyState := readyState c; frames := frames c ++ [f] |}.

(** [broadcast(type, data)]. *)
Definition broadcast (type : string) (data : Server.payload) (st : State)
    : State :=
  let message := {| Server.type := type; Server.data := data |} in
  {| db := db st;
     clients := (fun client => if is_open client
                               then send (Broadcast message) client
                               else client) <$> clients st;
     suspended := suspended st;
     published := published st ++ [message];
     answered := answered st |}.


Definition answer_of (k : continuation) : Server.response :=
  match k with Publish a _ _ | Answer a => a end.

Section WithRuntime.
Context {R : Runtime}.

(** The store operation of a request on the database, and the rest of its
    handler. *)
Definition operation (rq : Server.request) (db : list Server.Task)
    : list Server.Task * continuation :=
  match rq with
  | Server.POST now oid body =>
      let tempId := body !! "tempId" in
      let taskData := delete "tempId" body in
      match Server.save db (Server.new_Task now oid taskData) with
      | inr e => (db, Answer (Server.BadRequest e))
      | inl (task, db') =>
          let taskResponse :=
            Server.TaskData task
              (if truthy (prop body "tempId") then tempId else None) in
          (db', Publish (Server.Created task) "task:created" taskResponse)
      end
  | Server.PUT now id body =>
      match Server.findByIdAndUpdate now id body db with
      | inr e => (db, Answer (Server.BadRequest e))
      | inl None => (db, Answer Server.NotFound)
      | inl (Some (task, db')) =>
          (db', Publish (Server.Ok task) "task:updated"
                  (Server.TaskData task None))
      end
  | Server.DELETE id =>
      match Server.findByIdAndDelete id db with
      | inr e => (db, Answer (Server.InternalError e))
      | inl None => (db, Answer Server.NotFound)
      | inl (Some (_, db')) =>
          (db', Publish Server.Deleted "task:deleted" (Server.IdData id))
      end
  end.

(** A handler reaches its [await] and the store performs the operation. *)
Definition commit (rq : Server.request) (st : State) : State :=
  {| db := (operation rq (db st)).1;
     clients := clients st;
     suspended := suspended st ++ [(operation rq (db st)).2];
     published := published st;
     answered := answered st |}.
End WithRuntime.

(** The suspended handler at position [k] resumes and runs to its end. *)
Definition resume (k : nat) (st : State) : State :=
  match suspended st !! k with
  | None => st
  | Some rest =>
      let st' := {| db := db st; clients := clients st;
                    suspended := delete k (suspended st);
                    published := published st;
                    answered := answered st ++ [answer_of rest] |} in
      match rest with
      | Publish _ type data => broadcast type data st'
      | Answer _ => st'
      end
  end.

(** [wss.on('connection')]: the socket is registered; its interval and its
    [message] handler live until its [close]. *)
Definition on_connection (ws : nat) (st : State) : State :=
  {| db := db st;
     clients := if existsb (fun c => Nat.eqb (socket c) ws) (clients st)
                then clients st
                else clients st ++ [{| socket := ws; readyState := Server.OPEN;
                                       frames := [] |}];
     suspended := suspended st;
     published := published st;
     answered := answered st |}.

Definition on_close (ws : nat) (st : State) : State :=
  {| db := db st;
     clients := filter (fun c => socket c <> ws) (clients st);
     suspended := suspended st;
     published := published st;
     answered := answered st |}.

Definition update_socket (ws : nat) (f : Socket -> Socket) (st : State) : State :=
  {| db := db st;
     clients := (fun c => if Nat.eqb (socket c) ws then f c else c)
                  <$> clients st;
     suspended := suspended st;
     published := published st;
     answered := answered st |}.

(** The transport changes the [readyState] of a socket. *)
Definition set_readyState (ws : nat) (rs : Server.ReadyState) : State -> State :=
  update_socket ws (fun c => {| socket := socket c; readyState := rs;
                                frames := frames c |}).

(** The interval callback of a registered socket. *)
Definition on_interval (ws : nat) (now : string) : State -> State :=
  update_socket ws (fun c => if is_open c then send (TimeUpdate now) c else c).

(** [data.type] of a message that a socket receives; [Unhandled] stands for
    any other type and for text that does not parse. *)
Inductive incoming := Ping | TimelineSync | Unhandled.

(** The [message] handler of a registered socket; nothing goes out on a
    socket that is not open. *)
Definition on_message (ws : nat) (m : incoming) (now : string) : State -> State :=
  update_socket ws (fun c =>
    match m with
    | Ping => if is_open c then send Pong c else c
    | TimelineSync => if is_open c then send (TimelineSynced now) c else c
    | Unhandled => c
    end).

Inductive event :=
| Commit (rq : Server.request)
| Resume (k : nat)
| Connection (ws : nat)
| Close (ws : nat)
| Transport (ws : nat) (rs : Server.ReadyState)
| Interval (ws : nat) (now : string)
| Incoming (ws : nat) (m : incoming) (now : string).

Definition step {R : Runtime} (st : State) (e : event) : State :=
  match e with
  | Commit rq => commit rq st
  | Resume k => resume k st
  | Connection ws => on_connection ws st
  | Close ws => on_close ws st
  | Transport ws rs => set_readyState ws rs st
  | Interval ws now => on_interval ws now st
  | Incoming ws m now => on_message ws m now st
  end.

Definition run {R : Runtime} (l : list event) (st : State) : State :=
  foldl step st l.

(** *** What is observed *)

(** The frames of [broadcast] among the frames of a socket. *)
Definition broadcasts (fs : list frame) : list Server.Message :=
  omap (fun f => match f with Broadcast m => Some m | _ => None end) fs.





(** The state of [Server] that a state stands for when requests are served
    one at a time: the frames of [broadcast] on each socket. *)
Definition erase (st : State) : Server.State :=
  {| Server.db := db st;
     Server.clients :=
       (fun c => {| Server.socket := socket c;
                    Server.readyState := readyState c;
                    Server.sent := broadcasts (frames c) |}) <$> clients st;
     Server.published := published st |}.
End Interleaving.

(** A server with one open and one closed socket, and a history in which
    the handler of the second creation resumes before the handler of the
    first, between ticks, a ping and a new connection. *)
Module Traces.
Import Js Interleaving.


End Traces.

(** ** The task list of the sidebar ([renderTaskList]) *)

Module Sidebar.
Import Js Client.

(** The string functions of the host that [renderTaskList] calls. *)
Class Text := {
  toLowerCase : string -> string;
  trim : string -> string
}.

(** [s.includes(sub)]. *)
Fixpoint includes (s sub : string) : bool :=
  String.prefix sub s
  || match s with
     | String _ s' => includes s' sub
     | EmptyString => false
     end.

(** What [renderTaskList] puts into the list: the tasks shown, in order; a
    [TypeError] out of the filter; or, when [sort] has to compare an entry
    whose [startTime] is not a valid [Date], a [TypeError] or an order that
    the language leaves to the implementation. *)
Inductive shown :=
| Shown (filteredTasks : list (gmap string jsval))
| Throws
| Unspecified.

(** [task.startTime.getTime()] when it is a number. *)
Definition getTime (task : gmap string jsval) : option Z :=
  match get task "startTime" with
  | VDate (Some ms) => Some ms
  | _ => None
  end.

Definition time (task : gmap string jsval) : Z := default 0%Z (getTime task).

(** [statusFilter === 'all' || task.status === statusFilter]. *)
Definition matchesStatus (statusFilter : string) (task : gmap string jsval)
    : bool :=
  String.eqb statusFilter "all"
  || strict_eq (get task "status") (VStr statusFilter).

(** [this.elements.statusFilter?.value || 'all']. *)
Definition selected (statusFilter : option string) : string :=
  match statusFilter with
  | Some value => if String.eqb value "" then "all" else value
  | None => "all"
  end.

Section WithText.
Context {T : Text}.

(** [this.elements.taskSearch?.value.toLowerCase().trim() || '']. *)
Definition searchTerm (taskSearch : option string) : string :=
  match taskSearch with
  | Some value => trim (toLowerCase value)
  | None => ""
  end.

(** [!searchTerm || task.title.toLowerCase().includes(searchTerm)]; [None]
    for the [TypeError] of a title that is not a string. *)
Definition matchesSearch (searchTerm : string) (task : gmap string jsval)
    : option bool :=
  if String.eqb searchTerm "" then Some true
  else match get task "title" with
       | VStr title => Some (includes (toLowerCase title) searchTerm)
       | _ => None
       end.

(** [this.tasks.filter(task => ...)]. *)
Fixpoint filter_tasks (searchTerm statusFilter : string)
    (tasks : list (gmap string jsval)) : option (list (gmap string jsval)) :=
  match tasks with
  | [] => Some []
  | task :: tasks' =>
      match matchesSearch searchTerm task with
      | None => None
      | Some matchesSearch =>
          match filter_tasks searchTerm statusFilter tasks' with
          | None => None
          | Some rest =>
              Some (if matchesSearch && matchesStatus statusFilter task
                    then task :: rest else rest)
          end
      end
  end.

(** The tasks listed by [renderTaskList]: filtered by the search box and
    the status selector, then sorted by start time. An array of at most one
    element is sorted without a call of the comparison. *)
Definition renderTaskList (taskSearch statusFilter : option string)
    (m : Manager) : shown :=
  let searchTerm := searchTerm taskSearch in
  let statusFilter := selected statusFilter in
  match filter_tasks searchTerm statusFilter (tasks m) with
  | None => Throws
  | Some filteredTasks =>
      if (length filteredTasks <=? 1)%nat then Shown filteredTasks
      else if forallb (fun task => bool_decide (is_Some (getTime task)))
                      filteredTasks
           then Shown (Queries.sort_by time filteredTasks)
           else Unspecified
  end.

(** A task passes the filter for a search term and a status. *)
Definition visible (searchTerm statusFilter : string)
    (task : gmap string jsval) : bool :=
  match matchesSearch searchTerm task with
  | Some matchesSearch => matchesSearch && matchesStatus statusFilter task
  | None => false
  end.
End WithText.

(** The cache holds tasks with a string for a title and a valid date for a
    start time. *)
Definition listable (task : gmap string jsval) : Prop :=
  (exists title, get task "title" = VStr title) /\
  (exists ms, get task "startTime" = VDate (Some ms)).
End Sidebar.

(** String functions for closed examples: ASCII letters are lowered, blanks
    at both ends are dropped. *)
Module ExampleText.

Definition lower (c : ascii) : ascii :=
  let n := nat_of_ascii c in
  if (65 <=? n)%nat && (n <=? 90)%nat then ascii_of_nat (n + 32) else c.

Fixpoint toLowerCase (s : string) : string :=
  match s with
  | EmptyString => EmptyString
  | String c s' => String (lower c) (toLowerCase s')
  end.

Fixpoint trimStart (s : string) : string :=
  match s with
  | String c s' => if Ascii.eqb c " " then trimStart s' else s
  | EmptyString => EmptyString
  end.

Fixpoint trimEnd (s : string) : string :=
  match s with
  | String c s' =>
      match trimEnd s' with
      | EmptyString => if Ascii.eqb c " " then EmptyString
                       else String c EmptyString
      | rest => String c rest
      end
  | EmptyString => EmptyString
  end.

#[export] Instance text : Sidebar.Text :=
  {| Sidebar.toLowerCase := toLowerCase;
     Sidebar.trim := fun s => trimEnd (trimStart s) |}.
End ExampleText.

(** * Properties *)

Section CoordFacts.
Import Coord.
Local Open Scope Q_scope.

Lemma exec_valid v c : valid v -> valid (exec v c).
Proof.
  intros (Hlo & Hhi & Hp).
  destruct c; unfold valid; cbn; try (repeat split; assumption).
  - repeat split; try assumption.
    + apply Q.min_glb; lra.
    + apply Q.le_min_r.
  - repeat split; try assumption.
    + apply Q.le_max_r.
    + apply Q.max_lub; [| lra].
      apply Qle_shift_div_r; lra.
  - unfold animate. destruct (Qlt_le_dec _ _); cbn; repeat split; assumption.
Qed.

Lemma init_valid now : valid (init now).
Proof. unfold valid; cbn. repeat split; lra. Qed.

Lemma run_valid cs : forall v, valid v -> valid (run cs v).
Proof.
  induction cs as [|c cs IH]; intros v Hv; [exact Hv|].
  apply IH, exec_valid, Hv.
Qed.

(** Every view reachable from the constructor is valid. *)
Lemma reachable_valid now cs : valid (run cs (init now)).
Proof. apply run_valid, init_valid. Qed.
End CoordFacts.

Section CoordClaims.
Import Coord.
Local Open Scope Q_scope.

(** C2 (coordinate round trip). In every valid configuration, and for every
    container width, [xToTime] undoes [timeToX] at every timestamp and
    [timeToX] undoes [xToTime] at every pixel position: the two maps are
    exact inverses of each other over the rationals. *)
Theorem coordinate_round_trip (v : View) (t x containerWidth : Q) :
  valid v ->
  xToTime v (timeToX v t containerWidth) containerWidth == t /\
  timeToX v (xToTime v x containerWidth) containerWidth == x.
Proof.
  intros (Hlo & _ & Hp).
  unfold xToTime, timeToX; cbv zeta.
  split; field; split; intros H0; lra.
Qed.

Lemma coordinate_round_trip_witness :
  valid (init 1735722000000) /\
  xToTime (init 1735722000000)
          (timeToX (init 1735722000000) 1735725600000 800) 800
    == 1735725600000 /\
  timeToX (init 1735722000000)
          (xToTime (init 1735722000000) 520 800) 800 == 520.
Proof.
  assert (Hv : valid (init 1735722000000))
    by (unfold valid; cbn; repeat split; lra).
  split; [exact Hv|].
  exact (coordinate_round_trip (init 1735722000000) 1735725600000 520 800 Hv).
Defined.

(** C9 (zoom and offset controls). For a zoom factor in [[0.2, 5]]:
    zooming in yields 1.5 times the factor, or 5 when that would exceed 5;
    zooming out yields the factor divided by 1.5, or 0.2 when that would
    fall below 0.2; both results lie in [[0.2, 5]]; neither touches the
    view offset; and "jump to now" sets the view offset to 0 and leaves
    the zoom factor alone. *)
Theorem zoom_and_offset_controls (v : View) :
  0.2 <= zoomLevel v /\ zoomLevel v <= 5 ->
  (zoomLevel v * 1.5 <= 5 -> zoomLevel (zoomIn v) == zoomLevel v * 1.5) /\
  (5 <= zoomLevel v * 1.5 -> zoomLevel (zoomIn v) == 5) /\
  (0.2 <= zoomLevel v / 1.5 -> zoomLevel (zoomOut v) == zoomLevel v / 1.5) /\
  (zoomLevel v / 1.5 <= 0.2 -> zoomLevel (zoomOut v) == 0.2) /\
  (0.2 <= zoomLevel (zoomIn v) /\ zoomLevel (zoomIn v) <= 5) /\
  (0.2 <= zoomLevel (zoomOut v) /\ zoomLevel (zoomOut v) <= 5) /\
  timelineOffset (zoomIn v) = timelineOffset v /\
  timelineOffset (zoomOut v) = timelineOffset v /\
  timelineOffset (jumpToCurrentTime v) = 0 /\
  zoomLevel (jumpToCurrentTime v) = zoomLevel v.
Proof.
  intros [Hlo Hhi]. cbn.
  assert (Hdiv : zoomLevel v / 1.5 <= 5) by (apply Qle_shift_div_r; lra).
  repeat split.
  - intros H. apply Q.min_l, H.
  - intros H. apply Q.min_r, H.
  - intros H. apply Q.max_l, H.
  - intros H. apply Q.max_r, H.
  - apply Q.min_glb; lra.
  - apply Q.le_min_r.
  - apply Q.le_max_r.
  - apply Q.max_lub; [exact Hdiv | lra].
Qed.

Lemma zoom_and_offset_controls_witness :
  zoomLevel (zoomIn (init 0)) == 1.5 /\
  zoomLevel (zoomOut (zoomOut (zoomOut (zoomOut (init 0))))) == 0.2 /\
  timelineOffset (jumpToCurrentTime (animate 70000 (init 0))) = 0.
Proof.
  assert (H1 : 0.2 <= zoomLevel (init 0) /\ zoomLevel (init 0) <= 5)
    by (cbn; split; lra).
  destruct (zoom_and_offset_controls (init 0) H1) as (Hin & _).
  split; [rewrite Hin; cbn; lra|].
  pose (v3 := zoomOut (zoomOut (zoomOut (init 0)))).
  assert (H3 : 0.2 <= zoomLevel v3 /\ zoomLevel v3 <= 5)
    by (vm_compute; split; discriminate).
  destruct (zoom_and_offset_controls v3 H3) as (_ & _ & _ & Hout & _).
  split; [apply Hout; vm_compute; discriminate|].
  assert (H4 : 0.2 <= zoomLevel (animate 70000 (init 0)) /\
               zoomLevel (animate 70000 (init 0)) <= 5)
    by (vm_compute; split; discriminate).
  destruct (zoom_and_offset_controls _ H4) as (_ & _ & _ & _ & _ & _ & _ & _ & Hj & _).
  exact Hj.
Defined.
End CoordClaims.

Section ReconnectFacts.
Import Reconnect.
Local Open Scope Z_scope.

Lemma handle_configured ws e : configured ws -> configured (handle ws e).1.
Proof.
  intros [Hm Hd]. destruct e; cbn; unfold attemptReconnect; cbn;
    try (split; assumption);
    destruct (_ <? _); cbn; split; assumption.
Qed.

Lemma run_configured es : forall ws, configured ws -> configured (run es ws).1.
Proof.
  induction es as [|e es IH]; intros ws Hc; [exact Hc|].
  cbn. pose proof (handle_configured ws e Hc) as H1.
  destruct (handle ws e) as [ws1 out1]. specialize (IH ws1 H1).
  destruct (run es ws1) as [ws2 out2]. exact IH.
Qed.

Lemma delays_app out1 out2 : delays (out1 ++ out2) = delays out1 ++ delays out2.
Proof. unfold delays. apply omap_app. Qed.

(** [k] closes in a row, starting with the counter at [a <= 5]: one timer
    per close until the counter reaches 5, with delays 1000(a+1), 1000(a+2),
    and so on. *)
Lemma closes_from (k : nat) : forall (ws : WebSocketService) (a : nat),
  configured ws -> reconnectAttempts ws = Z.of_nat a -> (a <= 5)%nat ->
  delays (run (repeat OnClose k) ws).2
    = (fun i => 1000 * Z.of_nat i) <$> seq (S a) (Nat.min k (5 - a)) /\
  reconnectAttempts (run (repeat OnClose k) ws).1
    = Z.of_nat (a + Nat.min k (5 - a)).
Proof.
  induction k as [|k IH]; intros ws a Hc Ha Hle.
  - cbn. rewrite Ha. split; [reflexivity | f_equal; lia].
  - destruct Hc as [Hm Hd].
    change (repeat OnClose (S k)) with (OnClose :: repeat OnClose k).
    cbn [run handle]. unfold attemptReconnect.
    cbn [reconnectAttempts maxReconnectAttempts reconnectDelay set_isConnected].
    rewrite Hm, Ha, Hd.
    destruct (Z.ltb_spec (Z.of_nat a) 5) as [Hlt | Hge].
    + match goal with |- context [run _ ?w] => set (ws1 := w) end.
      destruct (IH ws1 (S a)) as [IHd IHa];
        [split; reflexivity | unfold ws1; cbn; lia | lia |].
      destruct (run (repeat OnClose k) ws1) as [ws2 out2].
      cbn [fst snd] in *.
      replace (Nat.min (S k) (5 - a)) with (S (Nat.min k (5 - S a))) by lia.
      rewrite delays_app, IHd, IHa. cbn [seq fmap list_fmap]. unfold delays at 1.
      cbn [omap list_omap app]. cbn [seq].
      split; [do 2 f_equal; lia | f_equal; lia].
    + match goal with |- context [run _ ?w] => set (ws1 := w) end.
      destruct (IH ws1 a) as [IHd IHa];
        [split; [exact Hm | exact Hd] | exact Ha | exact Hle |].
      destruct (run (repeat OnClose k) ws1) as [ws2 out2].
      cbn [fst snd app] in *.
      replace (Nat.min (S k) (5 - a)) with (Nat.min k (5 - a)) by lia.
      rewrite IHd, IHa. split; reflexivity.
Qed.

(** C6 (reconnection backoff). Take the service in any state it can reach
    from its constructor in which the attempt counter is 0 (freshly
    constructed, or after a successful open). Then [k] consecutive closes
    schedule one reconnection timer each for the first five of them and none
    afterwards; the timer set by the i-th close has delay i times the base
    delay of 1000 ms (so the one set by the third close has delay 3000 ms);
    the counter then stands at min(k, 5); and a successful open resets the
    counter to 0. *)
Theorem reconnect_backoff (history : list event) (k : nat) :
  let ws := (run history constructor).1 in
  reconnectAttempts ws = 0 ->
  delays (run (repeat OnClose k) ws).2
    = (fun i => reconnectDelay ws * Z.of_nat i) <$> seq 1 (Nat.min k 5) /\
  reconnectDelay ws = 1000 /\
  reconnectAttempts (run (repeat OnClose k) ws).1 = Z.of_nat (Nat.min k 5) /\
  reconnectAttempts (handle (run (repeat OnClose k) ws).1 OnOpen).1 = 0.
Proof.
  intros ws H0.
  assert (Hc : configured ws)
    by (apply run_configured; split; reflexivity).
  destruct (closes_from k ws 0%nat Hc H0 ltac:(lia)) as [Hd Ha].
  destruct Hc as [_ Hdelay]. rewrite Hdelay.
  replace (Nat.min k (5 - 0)) with (Nat.min k 5) in * by lia.
  repeat split; [exact Hd | exact Ha].
Qed.

Lemma reconnect_backoff_witness :
  delays (run (repeat OnClose 3)
            (run [OnClose; OnError; OnClose; OnOpen] constructor).1).2
    = [1000; 2000; 3000] /\
  delays (run (repeat OnClose 7) constructor).2
    = [1000; 2000; 3000; 4000; 5000].
Proof.
  split.
  - exact (proj1 (reconnect_backoff [OnClose; OnError; OnClose; OnOpen] 3
                    eq_refl)).
  - exact (proj1 (reconnect_backoff [] 7 eq_refl)).
Defined.
End ReconnectFacts.

Section ListFacts.
Import Js.
Context {A : Type}.
Implicit Types (p : A -> bool) (l : list A).

Lemma findIndex_Some p l i :
  findIndex p l = Some i ->
  exists x, l !! i = Some x /\ p x = true /\
            forall j y, (j < i)%nat -> l !! j = Some y -> p y = false.
Proof.
  revert i. induction l as [|a l IH]; intros i H; [discriminate|].
  cbn in H. destruct (p a) eqn:Hpa.
  - injection H as <-. exists a. repeat split; [exact Hpa|]. intros j y Hj; lia.
  - destruct (findIndex p l) as [k|] eqn:Hk; [|discriminate].
    injection H as <-. destruct (IH k eq_refl) as (x & Hx & Hpx & Hbefore).
    exists x. repeat split; [exact Hx | exact Hpx |].
    intros [|j] y Hj Hy; cbn in Hy.
    + injection Hy as <-. exact Hpa.
    + apply (Hbefore j y); [lia | exact Hy].
Qed.

Lemma findIndex_None p l :
  findIndex p l = None <-> forall x, x ∈ l -> p x = false.
Proof.
  induction l as [|a l IH]; cbn.
  - split; [intros _ x Hx; inversion Hx | reflexivity].
  - destruct (p a) eqn:Hpa.
    + split; [discriminate|]. intros H. specialize (H a (list_elem_of_here _ _)).
      congruence.
    + destruct (findIndex p l) as [k|] eqn:Hk; cbn.
      * split; [discriminate|]. intros H.
        destruct IH as [_ IH]. discriminate IH.
        intros x Hx. apply H. now apply list_elem_of_further.
      * split; [|reflexivity]. intros _ x Hx.
        apply elem_of_cons in Hx as [->|Hx]; [exact Hpa|].
        now apply IH.
Qed.

Lemma findIndex_first p l i x :
  l !! i = Some x -> p x = true ->
  (forall j y, (j < i)%nat -> l !! j = Some y -> p y = false) ->
  findIndex p l = Some i.
Proof.
  revert i. induction l as [|a l IH]; intros i Hx Hpx Hbefore; [discriminate|].
  destruct i as [|i]; cbn in *.
  - injection Hx as ->. now rewrite Hpx.
  - rewrite (Hbefore 0%nat a) by (lia || reflexivity).
    rewrite (IH i Hx Hpx); [reflexivity|].
    intros j y Hj Hy. apply (Hbefore (S j) y); [lia | exact Hy].
Qed.
End ListFacts.

Section ServerFacts.
Import Js Server.
Context {R : Runtime}.
Implicit Types (body data : gmap string json) (st : State).

Lemma save_inl dbase t task db' :
  save dbase t = inl (task, db') ->
  t = inl task /\ findById (_id task) dbase = None /\ db' = dbase ++ [task].
Proof.
  unfold save. destruct t as [t0|e]; [|discriminate].
  destruct (findById (_id t0) dbase) eqn:Hf; [discriminate|].
  intros H. injection H as <- <-. repeat split. exact Hf.
Qed.


Lemma findByIdAndDelete_Some id dbase old db' :
  findByIdAndDelete id dbase = inl (Some (old, db')) ->
  exists i, dbase !! i = Some old /\ _id old = id /\ db' = delete i dbase.
Proof.
  unfold findByIdAndDelete.
  destruct (negb (is_object_id id)); [discriminate|].
  destruct (findIndex _ dbase) as [i|] eqn:Hi; [|discriminate].
  apply findIndex_Some in Hi as (x & Hx & Hid & _).
  rewrite Hx. intros H. injection H as <- <-.
  apply String.eqb_eq in Hid. exists i. repeat split; assumption.
Qed.

(** Each open socket gets the message once, after what it was sent before;
    the others get nothing; no socket is added or dropped. *)
Lemma deliver_lookup message cs i :
  deliver message cs !! i =
  (fun c => if is_open c
            then {| socket := socket c; readyState := readyState c;
                    sent := sent c ++ [message] |}
            else c) <$> cs !! i.
Proof. unfold deliver. now rewrite list_lookup_fmap. Qed.

End ServerFacts.

Section CreateFacts.
Import Js Server.
Context {R : Runtime}.
Implicit Types (body data : gmap string json) (st : State).

(** The [tempId] taken out of the body plays no part in validation. *)
Lemma fields_without_tempId body :
  title_field (delete "tempId" body) = title_field body /\
  startTime_field (delete "tempId" body) = startTime_field body /\
  duration_field (delete "tempId" body) = duration_field body /\
  color_field (delete "tempId" body) = color_field body /\
  status_field (delete "tempId" body) = status_field body /\
  userId_field (delete "tempId" body) = userId_field body.
Proof.
  unfold title_field, startTime_field, duration_field, color_field,
    status_field, userId_field, present.
  repeat split; rewrite !lookup_delete_ne by discriminate; reflexivity.
Qed.

Lemma new_Task_without_tempId now oid body :
  new_Task now oid (delete "tempId" body) = new_Task now oid body.
Proof.
  unfold new_Task.
  destruct (fields_without_tempId body) as (-> & -> & -> & -> & -> & ->).
  reflexivity.
Qed.

Lemma castString_total (v : option json) : exists r, castString v = Cast r.
Proof. destruct v as [[| | |]|]; cbn; eauto. Qed.

Lemma color_field_valid body : exists c, color_field body = Valid c.
Proof.
  unfold color_field, with_default, optional.
  destruct (present body "color"); [|eauto].
  destruct (castString_total (body !! "color")) as [r ->]. eauto.
Qed.

Lemma userId_field_valid body : exists u, userId_field body = Valid u.
Proof.
  unfold userId_field, with_default, optional.
  destruct (present body "userId"); [|eauto].
  destruct (castString_total (body !! "userId")) as [r ->]. eauto.
Qed.

Lemma status_field_valid body :
  (body !! "status" = None \/
   exists s, body !! "status" = Some (JStr s) /\ In s status_enum) ->
  exists s, status_field body = Valid s.
Proof.
  unfold status_field, with_default, optional, present.
  intros [Hn | (s & Hs & Hin)].
  - rewrite Hn. rewrite bool_decide_eq_false_2 by (intros [? ?]; discriminate).
    cbn. eauto.
  - rewrite Hs. rewrite bool_decide_eq_true_2 by eauto. cbn.
    assert (He : existsb (String.eqb s) status_enum = true).
    { apply existsb_exists. exists s. split; [exact Hin | apply String.eqb_refl]. }
    cbn in He. rewrite He. eauto.
Qed.
End CreateFacts.

Section CreateClaims.
Import Js Server Samples.
Implicit Types (body : gmap string json) (st : State).

(** C3 (validation boundary of create), as the code has it. On the server,
    creating a task with an empty title is refused with a validation error
    that names [title], and nothing is stored or broadcast. A body with a
    non-empty title, a start time that casts to a valid instant, a numeric
    duration (any number: the schema sets no minimum) and a status that is
    absent or one of the three allowed values is stored under the fresh
    identifier and returned, provided the identifier is not yet in use.
    The 15-minute minimum belongs to the client's form handler: with a title
    and a valid start time it reports the duration field for a duration
    below 15 and lets 15 or more through. *)
Theorem create_validation_boundary {R : Runtime} now oid st :
  (forall body,
     body !! "title" = Some (JStr "") ->
     exists errors,
       post_tasks now oid body st = (BadRequest (ValidationError errors), st) /\
       In ("title", Required) errors) /\
  (forall body t s d,
     body !! "title" = Some (JStr t) -> t <> "" ->
     castDate (body !! "startTime") = Cast (Some s) ->
     body !! "duration" = Some (JNum d) ->
     (body !! "status" = None \/
      exists v, body !! "status" = Some (JStr v) /\ In v status_enum) ->
     findById oid (db st) = None ->
     exists task st',
       post_tasks now oid body st = (Created task, st') /\
       _id task = oid /\ title task = t /\ startTime task = s /\
       duration task = d /\ db st' = db st ++ [task]) /\
  (forall taskData d,
     Client.title taskData <> "" ->
     Client.startTime taskData <> None ->
     Client.duration taskData = Fin d ->
     ((d < 15)%Q ->
      Client.saveTask_validation taskData =
        Client.ShowError "Task duration must be at least 15 minutes"
                         "taskDuration") /\
     ((15 <= d)%Q ->
      Client.saveTask_validation taskData = Client.Save taskData)).
Proof.
  split; [|split].
  - intros body Ht. unfold post_tasks. rewrite new_Task_without_tempId.
    unfold new_Task.
    assert (Hf : title_field body = Invalid Required)
      by (unfold title_field; now rewrite Ht).
    rewrite Hf.
    destruct (startTime_field body), (duration_field body),
      (color_field body), (status_field body), (userId_field body);
      cbn; eexists; (split; [reflexivity | left; reflexivity]).
  - intros body t s d Ht Hne Hs Hd Hst Hfresh.
    unfold post_tasks. rewrite new_Task_without_tempId. unfold new_Task.
    assert (Hft : title_field body = Valid t).
    { unfold title_field. rewrite Ht. cbn. unfold is_empty_string.
      destruct (String.eqb_spec t ""); [contradiction | reflexivity]. }
    assert (Hfs : startTime_field body = Valid s)
      by (unfold startTime_field; now rewrite Hs).
    assert (Hfd : duration_field body = Valid d)
      by (unfold duration_field; now rewrite Hd).
    destruct (color_field_valid body) as [c Hc].
    destruct (status_field_valid body Hst) as [sv Hsv].
    destruct (userId_field_valid body) as [u Hu].
    rewrite Hft, Hfs, Hfd, Hc, Hsv, Hu. cbn [save _id]. rewrite Hfresh.
    eexists _, _. split; [reflexivity|]. cbn. repeat split; reflexivity.
  - intros taskData d Htitle Hstart Hdur.
    unfold Client.saveTask_validation.
    destruct (String.eqb_spec (Client.title taskData) ""); [contradiction|].
    rewrite bool_decide_eq_false_2 by exact Hstart.
    rewrite Hdur. cbn. split.
    + intros Hlt. destruct (Qle_bool 15 d) eqn:Hle; [|reflexivity].
      apply Qle_bool_iff in Hle. lra.
    + intros Hle. apply Qle_bool_iff in Hle. now rewrite Hle.
Qed.

Lemma create_validation_boundary_witness :
  (exists errors,
     post_tasks (R := ExampleRuntime.runtime) 1735722000123
                "65a1b2c3d4e5f60718293a4b" (sample_body "" 60) sample_state
       = (BadRequest (ValidationError errors), sample_state) /\
     In ("title", Required) errors) /\
  (exists task st',
     post_tasks (R := ExampleRuntime.runtime) 1735722000123
                "65a1b2c3d4e5f60718293a4b" (sample_body "X" 15) sample_state
       = (Created task, st') /\
     _id task = "65a1b2c3d4e5f60718293a4b" /\ title task = "X" /\
     startTime task = 1735722000000%Z /\ duration task = 15%Q /\
     db st' = db sample_state ++ [task]).
Proof.
  pose proof (create_validation_boundary (R := ExampleRuntime.runtime)
                1735722000123 "65a1b2c3d4e5f60718293a4b" sample_state)
    as (Hempty & Hok & _).
  split.
  - apply Hempty. reflexivity.
  - apply (Hok (sample_body "X" 15) "X" 1735722000000%Z 15%Q).
    + reflexivity.
    + discriminate.
    + vm_compute. reflexivity.
    + reflexivity.
    + right. exists "pending". split; [reflexivity | left; reflexivity].
    + reflexivity.
Defined.

(** C3, counterexample to the claim as worded: the server stores and
    returns a task whose duration is 10; it signals no validation error. *)
Lemma create_accepts_duration_10 :
  (post_tasks (R := ExampleRuntime.runtime) 1735722000123
              "65a1b2c3d4e5f60718293a4b" (sample_body "X" 10) sample_state).1
    = Created (sample_task 10) /\
  ~ (exists e,
       (post_tasks (R := ExampleRuntime.runtime) 1735722000123
                   "65a1b2c3d4e5f60718293a4b" (sample_body "X" 10)
                   sample_state).1 = BadRequest e).
Proof.
  assert (H : (post_tasks (R := ExampleRuntime.runtime) 1735722000123
                 "65a1b2c3d4e5f60718293a4b" (sample_body "X" 10)
                 sample_state).1 = Created (sample_task 10))
    by (vm_compute; reflexivity).
  split; [exact H|]. intros [e He]. rewrite H in He. discriminate.
Qed.
End CreateClaims.

Section JsFacts.
Import Js.

Lemma Qeq_bool_sym x y : Qeq_bool x y = Qeq_bool y x.
Proof.
  destruct (Qeq_bool x y) eqn:H1, (Qeq_bool y x) eqn:H2; try reflexivity.
  - apply Qeq_bool_iff in H1. symmetry in H1. apply Qeq_bool_iff in H1. congruence.
  - apply Qeq_bool_iff in H2. symmetry in H2. apply Qeq_bool_iff in H2. congruence.
Qed.

Lemma strict_eq_sym a b : strict_eq a b = strict_eq b a.
Proof.
  destruct a as [| | x | [|x] | x | x], b as [| | y | [|y] | y | y];
    cbn; try reflexivity.
  - now destruct x, y.
  - apply Qeq_bool_sym.
  - apply String.eqb_sym.
Qed.

Lemma strict_eq_trans a b c :
  strict_eq a b = true -> strict_eq b c = true -> strict_eq a c = true.
Proof.
  destruct a as [| | x | [|x] | x | x], b as [| | y | [|y] | y | y];
    cbn; try discriminate;
    destruct c as [| | z | [|z] | z | z]; cbn; try discriminate; try reflexivity.
  - destruct x, y, z; cbn; congruence.
  - intros H1 H2. apply Qeq_bool_iff in H1, H2. apply Qeq_bool_iff.
    now rewrite H1.
  - intros H1 H2. apply String.eqb_eq in H1, H2. apply String.eqb_eq. congruence.
Qed.

(** Two values identical to a third are identical to each other. *)
Lemma strict_eq_common a b c :
  strict_eq a c = true -> strict_eq b c = true -> strict_eq a b = true.
Proof.
  intros Ha Hb. rewrite strict_eq_sym in Hb. exact (strict_eq_trans a c b Ha Hb).
Qed.

(** A truthy value read from a parsed object is identical to itself. *)
Lemma strict_eq_prop_refl (o : gmap string json) k :
  truthy (prop o k) = true -> strict_eq (prop o k) (prop o k) = true.
Proof.
  unfold prop. destruct (o !! k) as [[| b | q | s]|]; cbn; try discriminate.
  - now destruct b.
  - intros _. apply Qeq_bool_iff. reflexivity.
  - intros _. apply String.eqb_refl.
Qed.
End JsFacts.

Section CacheFacts.
Import Js Client.
Context {R : Runtime}.
Implicit Types (m : Manager) (task data : gmap string json)
  (t : gmap string jsval) (l : list (gmap string jsval)) (id : jsval).

Lemma normalizeTask_id task :
  normalizeTask task !! "id" = Some (logical_or (prop task "_id") (prop task "id")).
Proof. unfold normalizeTask. now simplify_map_eq. Qed.

Lemma normalizeTask__id task :
  normalizeTask task !! "_id" = Some (logical_or (prop task "_id") (prop task "id")).
Proof. unfold normalizeTask. now simplify_map_eq. Qed.

Lemma normalizeTask_startTime task :
  normalizeTask task !! "startTime" = Some (VDate (new_Date (prop task "startTime"))).
Proof. unfold normalizeTask. now simplify_map_eq. Qed.

Lemma normalizeTask_duration task :
  normalizeTask task !! "duration" = Some (VNum (Number (prop task "duration"))).
Proof. unfold normalizeTask. now simplify_map_eq. Qed.

Lemma normalizeTask_from task : from_normalizeTask (normalizeTask task).
Proof.
  exists task, (new_Date (prop task "startTime")).
  symmetry. apply insert_id, normalizeTask_startTime.
Qed.

Lemma from_normalizeTask_normalized t : from_normalizeTask t -> normalized t.
Proof.
  intros (task & d & ->). unfold normalized. repeat split.
  - exists (logical_or (prop task "_id") (prop task "id")).
    rewrite !lookup_insert_ne by discriminate.
    split; [apply normalizeTask_id | apply normalizeTask__id].
  - exists d. apply lookup_insert_eq.
  - exists (Number (prop task "duration")).
    rewrite lookup_insert_ne by discriminate. apply normalizeTask_duration.
Qed.

Lemma from_normalizeTask_drag t d :
  from_normalizeTask t -> from_normalizeTask (<["startTime" := VDate d]> t).
Proof.
  intros (task & d0 & ->). exists task, d. apply insert_insert_eq.
Qed.

(** With a truthy [_id], the normalised record answers to that [_id]. *)
Lemma has_id_normalizeTask task :
  truthy (prop task "_id") = true ->
  has_id (prop task "_id") (normalizeTask task) = true.
Proof.
  intros Ht. unfold has_id, get. rewrite normalizeTask__id. cbn.
  unfold logical_or. rewrite Ht. now apply strict_eq_prop_refl.
Qed.

Lemma ids_unique_lookup l i j ti tj :
  ids_unique l = true -> l !! i = Some ti -> l !! j = Some tj -> (i < j)%nat ->
  has_id (get ti "_id") tj = false.
Proof.
  revert i j. induction l as [|a l IH]; intros i j Hu Hi Hj Hlt; [discriminate|].
  cbn in Hu. apply andb_true_iff in Hu as [Ha Hl].
  destruct j as [|j]; [lia|]. cbn in Hj.
  destruct i as [|i]; cbn in Hi.
  - injection Hi as ->. apply negb_true_iff in Ha.
    destruct (has_id (get ti "_id") tj) eqn:Hh; [|reflexivity].
    assert (He : existsb (has_id (get ti "_id")) l = true).
    { apply existsb_exists. exists tj. split; [|exact Hh].
      apply list_elem_of_In, list_elem_of_lookup. eauto. }
    congruence.
  - apply (IH i j); [exact Hl | exact Hi | exact Hj | lia].
Qed.

(** In an array with unique identifiers at most one position answers to a
    given identifier. *)
Lemma ids_unique_one l id i j ti tj :
  ids_unique l = true -> l !! i = Some ti -> l !! j = Some tj ->
  has_id id ti = true -> has_id id tj = true -> i = j.
Proof.
  intros Hu Hi Hj Hti Htj.
  assert (Hij : has_id (get ti "_id") tj = true).
  { unfold has_id in *. exact (strict_eq_common _ _ _ Htj Hti). }
  assert (Hji : has_id (get tj "_id") ti = true).
  { unfold has_id in *. exact (strict_eq_common _ _ _ Hti Htj). }
  destruct (Nat.lt_trichotomy i j) as [Hlt | [Heq | Hgt]]; [|exact Heq|].
  - rewrite (ids_unique_lookup l i j ti tj Hu Hi Hj Hlt) in Hij. discriminate.
  - rewrite (ids_unique_lookup l j i tj ti Hu Hj Hi Hgt) in Hji. discriminate.
Qed.

Lemma count_id_zero id l :
  count_id id l = 0%nat <-> findIndex (has_id id) l = None.
Proof.
  unfold count_id. induction l as [|a l IH]; cbn; [tauto|].
  destruct (has_id id a); cbn; [split; discriminate|].
  rewrite IH. destruct (findIndex (has_id id) l); cbn; split; congruence.
Qed.

Lemma count_id_app id l l' :
  count_id id (l ++ l') = (count_id id l + count_id id l')%nat.
Proof. unfold count_id. now rewrite List.filter_app, length_app. Qed.
End CacheFacts.

Section BroadcastHandling.
Import Js Client.
Context {R : Runtime}.
Implicit Types (m : Manager) (task data : gmap string json)
  (t : gmap string jsval) (l : list (gmap string jsval)) (id : jsval).

Lemma on_updated data m :
  handleWebSocketMessage {| type := "task:updated"; data := data |} m
  = handleTaskUpdated data m.
Proof. reflexivity. Qed.

Lemma on_deleted data m :
  handleWebSocketMessage {| type := "task:deleted"; data := data |} m
  = handleTaskDeleted data m.
Proof. reflexivity. Qed.

(** C4 (handling of an [updated] broadcast), as the code has it. When some
    entry of the cache has the record's [_id], the first such entry is
    replaced by the normalised record and every other entry stays where it
    is; when no entry has it, the event is ignored: the cache is unchanged
    and nothing is inserted. Either way the selection, the task being
    edited and the pending tokens are untouched. *)
Theorem updated_broadcast_handling m data :
  let m' := handleWebSocketMessage {| type := "task:updated"; data := data |} m in
  (forall i t,
     tasks m !! i = Some t -> has_id (prop data "_id") t = true ->
     (forall j u, (j < i)%nat -> tasks m !! j = Some u ->
                  has_id (prop data "_id") u = false) ->
     tasks m' = <[i := normalizeTask data]> (tasks m)) /\
  ((forall t, t ∈ tasks m -> has_id (prop data "_id") t = false) ->
   tasks m' = tasks m) /\
  length (tasks m') = length (tasks m) /\
  selectedTask m' = selectedTask m /\
  editingTask m' = editingTask m /\
  pendingCreations m' = pendingCreations m.
Proof.
  cbv zeta. rewrite on_updated. unfold handleTaskUpdated.
  repeat split.
  - intros i t Hi Ht Hfirst.
    rewrite (findIndex_first _ _ i t Hi Ht Hfirst). reflexivity.
  - intros Hnone. apply findIndex_None in Hnone. now rewrite Hnone.
  - destruct (findIndex _ _); cbn; [apply length_insert | reflexivity].
  - now destruct (findIndex _ _).
  - now destruct (findIndex _ _).
  - now destruct (findIndex _ _).
Qed.



(** C8 (idempotent merge). Applying an [updated] event twice gives the
    same manager state as applying it once, whenever the record carries a
    truthy [_id] (as every record of the store does) or the cache holds
    distinct identifiers. *)
Theorem updated_idempotent m data :
  truthy (prop data "_id") = true \/ ids_unique (tasks m) = true ->
  let event := {| type := "task:updated"; data := data |} in
  handleWebSocketMessage event (handleWebSocketMessage event m)
  = handleWebSocketMessage event m.
Proof.
  intros Hcond. cbv zeta. rewrite !on_updated.
  unfold handleTaskUpdated at 2.
  destruct (findIndex _ (tasks m)) as [i|] eqn:Hi.
  - pose proof Hi as Hi'.
    apply findIndex_Some in Hi' as (ti & Hti & Hmatch & Hbefore).
    assert (Hlen : (i < length (tasks m))%nat) by (eapply lookup_lt_Some; eauto).
    unfold handleTaskUpdated. rewrite Hi. cbn [tasks set_tasks].
    destruct (has_id (prop data "_id") (normalizeTask data)) eqn:Hn.
    + rewrite (findIndex_first _ _ i (normalizeTask data)).
      * unfold set_tasks. cbn. now rewrite list_insert_insert_eq.
      * now apply list_lookup_insert_eq.
      * exact Hn.
      * intros j u Hj Hu. rewrite list_lookup_insert_ne in Hu by lia.
        exact (Hbefore j u Hj Hu).
    + destruct Hcond as [Ht|Hu];
        [rewrite (has_id_normalizeTask data Ht) in Hn; discriminate|].
      assert (Hnone : findIndex (has_id (prop data "_id"))
                        (<[i := normalizeTask data]> (tasks m)) = None).
      { apply findIndex_None. intros u Hu'.
        apply list_elem_of_lookup in Hu' as [j Hj].
        destruct (decide (i = j)) as [<-|Hne].
        - rewrite list_lookup_insert_eq in Hj by exact Hlen.
          injection Hj as <-. exact Hn.
        - rewrite list_lookup_insert_ne in Hj by exact Hne.
          destruct (has_id (prop data "_id") u) eqn:Hh; [|reflexivity].
          exfalso. apply Hne.
          exact (ids_unique_one _ _ _ _ _ _ Hu Hti Hj Hmatch Hh). }
      now rewrite Hnone.
  - unfold handleTaskUpdated. now rewrite Hi.
Qed.
End BroadcastHandling.

Section Reachable.
Import Js Client.
Context {R : Runtime}.
Implicit Types (m : Manager) (task data : gmap string json)
  (t : gmap string jsval) (l : list (gmap string jsval)) (id : jsval).

Lemma run_snoc es e m : run (es ++ [e]) m = step (run es m) e.
Proof. unfold run. now rewrite foldl_app. Qed.

(** An invariant of [step] that holds initially holds after any history. *)
Lemma run_invariant (P : Manager -> Prop) :
  (forall m e, P m -> P (step m e)) ->
  forall es m, P m -> P (run es m).
Proof.
  intros Hstep es. induction es as [|e es IH] using rev_ind; intros m Hm.
  - exact Hm.
  - rewrite run_snoc. apply Hstep, IH, Hm.
Qed.

Lemma handleTaskCreated_pending task m :
  pendingCreations (handleTaskCreated task m) = pendingCreations m.
Proof. unfold handleTaskCreated. now destruct (findIndex _ _). Qed.

Lemma handleTaskUpdated_pending task m :
  pendingCreations (handleTaskUpdated task m) = pendingCreations m.
Proof. unfold handleTaskUpdated. now destruct (findIndex _ _). Qed.

Lemma handleTaskDeleted_pending data m :
  pendingCreations (handleTaskDeleted data m) = pendingCreations m.
Proof.
  unfold handleTaskDeleted. destruct (findIndex _ _); [|reflexivity].
  destruct (selectedTask m) as [sel|]; [destruct (has_id _ sel)|]; reflexivity.
Qed.

Lemma difference_below (s : gset string) (x : string) : s ∖ {[x]} ⊆ s.
Proof. intros y Hy. apply elem_of_difference in Hy. tauto. Qed.

(** Only [createTask] adds a token; every other transition keeps the set
    or shrinks it. *)
Lemma step_pending m e :
  pendingCreations (step m e) ⊆
  match e with
  | CreateStarted now rnd => {[mkTempId now rnd]} ∪ pendingCreations m
  | _ => pendingCreations m
  end.
Proof.
  destruct e as [l| |now rnd|tempId newTask|tempId|updatedTask|taskId|msg
                 |i|[i|]| |i timeDelta]; cbn; try reflexivity.
  - unfold saveTaskToAPI_created.
    destruct (findIndex _ _); cbn; apply difference_below.
  - apply difference_below.
  - unfold saveTaskToAPI_updated. destruct (editingTask m); [|reflexivity].
    destruct (findIndex _ _); reflexivity.
  - unfold deleteTaskFromAPI_resolved.
    destruct (findIndex _ _); cbn;
      (destruct (selectedTask m) as [sel|]; [destruct (has_id _ sel)|]);
      reflexivity.
  - unfold handleWebSocketMessage.
    destruct (String.eqb (type msg) "task:created").
    + destruct (_ && _).
      * cbn. unfold remove.
        destruct (prop _ _); try reflexivity. apply difference_below.
      * now rewrite handleTaskCreated_pending.
    + destruct (String.eqb (type msg) "task:updated");
        [now rewrite handleTaskUpdated_pending|].
      destruct (String.eqb (type msg) "task:deleted");
        [now rewrite handleTaskDeleted_pending | reflexivity].
  - now destruct (tasks m !! i).
  - now destruct (tasks m !! i).
  - unfold onMouseMove. destruct (tasks m !! i); [|reflexivity].
    now destruct (get _ _).
Qed.

(** Every pending token is a non-empty string. *)
Lemma pending_nonempty es : "" ∉ pendingCreations (run es constructor).
Proof.
  apply (run_invariant (fun m => "" ∉ pendingCreations m));
    [|apply not_elem_of_empty].
  intros m e Hm Hin. apply step_pending in Hin.
  destruct e; try (apply Hm; exact Hin).
  apply elem_of_union in Hin as [Hin|Hin]; [|exact (Hm Hin)].
  apply elem_of_singleton in Hin. discriminate.
Qed.

Lemma Forall_from_insert l i t :
  Forall from_normalizeTask l -> from_normalizeTask t ->
  Forall from_normalizeTask (<[i := t]> l).
Proof. intros Hl Ht. now apply Forall_insert. Qed.

Lemma handleTaskCreated_from task m :
  Forall from_normalizeTask (tasks m) ->
  Forall from_normalizeTask (tasks (handleTaskCreated task m)).
Proof.
  intros H. unfold handleTaskCreated. destruct (findIndex _ _); [exact H|].
  cbn. apply Forall_app. split; [exact H|].
  constructor; [apply normalizeTask_from | constructor].
Qed.

Lemma handleTaskUpdated_from task m :
  Forall from_normalizeTask (tasks m) ->
  Forall from_normalizeTask (tasks (handleTaskUpdated task m)).
Proof.
  intros H. unfold handleTaskUpdated. destruct (findIndex _ _); [|exact H].
  cbn. apply Forall_from_insert; [exact H | apply normalizeTask_from].
Qed.

Lemma handleTaskDeleted_from data m :
  Forall from_normalizeTask (tasks m) ->
  Forall from_normalizeTask (tasks (handleTaskDeleted data m)).
Proof.
  intros H. unfold handleTaskDeleted. destruct (findIndex _ _) as [k|]; [|exact H].
  assert (H' : Forall from_normalizeTask (splice1 k (tasks m)))
    by now apply Forall_delete.
  destruct (selectedTask m) as [sel|]; [destruct (has_id _ sel)|]; exact H'.
Qed.

(** [step] keeps every cached object an output of [normalizeTask]. *)
Lemma step_from m e :
  Forall from_normalizeTask (tasks m) ->
  Forall from_normalizeTask (tasks (step m e)).
Proof.
  intros H.
  destruct e as [l| |now rnd|tempId newTask|tempId|updatedTask|taskId|msg
                 |i|[i|]| |i timeDelta]; cbn; try exact H.
  - apply Forall_fmap, Forall_forall. intros x _. apply normalizeTask_from.
  - unfold saveTaskToAPI_created. cbn.
    destruct (findIndex _ _); cbn; [exact H|].
    apply Forall_app. split; [exact H|].
    constructor; [apply normalizeTask_from | constructor].
  - unfold saveTaskToAPI_updated. destruct (editingTask m); [|exact H].
    destruct (findIndex _ _); [|exact H].
    cbn. apply Forall_from_insert; [exact H | apply normalizeTask_from].
  - unfold deleteTaskFromAPI_resolved.
    destruct (findIndex _ _) as [k|]; cbn.
    + assert (H' : Forall from_normalizeTask (splice1 k (tasks m)))
        by now apply Forall_delete.
      destruct (selectedTask m) as [sel|]; [destruct (has_id _ sel)|]; exact H'.
    + destruct (selectedTask m) as [sel|]; [destruct (has_id _ sel)|]; exact H.
  - unfold handleWebSocketMessage.
    destruct (String.eqb (type msg) "task:created").
    + destruct (_ && _); [exact H | now apply handleTaskCreated_from].
    + destruct (String.eqb (type msg) "task:updated");
        [now apply handleTaskUpdated_from|].
      destruct (String.eqb (type msg) "task:deleted");
        [now apply handleTaskDeleted_from | exact H].
  - now destruct (tasks m !! i).
  - now destruct (tasks m !! i).
  - unfold onMouseMove. destruct (tasks m !! i) as [dragTask|] eqn:Hi; [|exact H].
    destruct (get dragTask "startTime"); try exact H.
    cbn. apply Forall_from_insert; [exact H|].
    apply from_normalizeTask_drag.
    eapply Forall_lookup_1; eauto.
Qed.
End Reachable.

Section ClientClaims.
Import Js Client.
Context {R : Runtime}.
Implicit Types (m : Manager) (task data : gmap string json)
  (t : gmap string jsval) (l : list (gmap string jsval)) (id : jsval).

(** C1 (echo suppression for creation). After any history of the client,
    if token [T] is pending and a [created] broadcast arrives whose payload
    carries [tempId] = [T], the handler leaves the task cache (and the
    selection and the task being edited) exactly as it was and removes [T]
    from the pending set. The cache therefore holds, for the identifier of
    the new task, only what the direct response then adds: afterwards the
    number of entries with that identifier is at most one if there was none
    before (exactly one when the identifier is truthy), and unchanged
    otherwise. *)
Theorem echo_suppression (history : list event) (T : string) data :
  let m := run history constructor in
  T ∈ pendingCreations m ->
  data !! "tempId" = Some (JStr T) ->
  let m' := handleWebSocketMessage {| type := "task:created"; data := data |} m in
  tasks m' = tasks m /\
  pendingCreations m' = pendingCreations m ∖ {[T]} /\
  selectedTask m' = selectedTask m /\
  editingTask m' = editingTask m /\
  (forall newTask,
     let n := count_id (prop newTask "_id") (tasks m) in
     let n' := count_id (prop newTask "_id")
                 (tasks (saveTaskToAPI_created T newTask m')) in
     (n' <= Nat.max 1 n)%nat /\
     (truthy (prop newTask "_id") = true -> n' = Nat.max 1 n)).
Proof.
  intros m HT Hdata m'.
  assert (Hne : T <> "").
  { intros ->. exact (pending_nonempty history HT). }
  assert (Hm' : m' = set_pendingCreations (pendingCreations m ∖ {[T]}) m).
  { unfold m', handleWebSocketMessage.
    cbn [Client.type Client.data String.eqb Ascii.eqb Bool.eqb].
    unfold prop. rewrite Hdata. cbn [from_option of_json truthy has remove].
    destruct (String.eqb_spec T ""); [contradiction|].
    rewrite bool_decide_eq_true_2 by exact HT. reflexivity. }
  rewrite Hm'. cbn [tasks set_pendingCreations pendingCreations selectedTask
                     editingTask]. repeat split.
  - unfold saveTaskToAPI_created. cbn.
    destruct (findIndex _ (tasks m)) as [i|] eqn:Hi; cbn.
    + lia.
    + apply count_id_zero in Hi. rewrite count_id_app, Hi.
      unfold count_id. cbn. destruct (has_id _ _); cbn; lia.
  - intros Htruthy. unfold saveTaskToAPI_created. cbn.
    destruct (findIndex _ (tasks m)) as [i|] eqn:Hi; cbn.
    + destruct (count_id (prop newTask "_id") (tasks m)) eqn:Hc; [|lia].
      apply count_id_zero in Hc. congruence.
    + apply count_id_zero in Hi. rewrite count_id_app, Hi.
      unfold count_id. cbn. now rewrite (has_id_normalizeTask newTask Htruthy).
Qed.

(** C10 (cache normalisation invariant). After any history of the client
    (loads, creations, updates, deletions, broadcasts, selections and
    drags), every object in the task cache is an output of [normalizeTask],
    up to a later replacement of its [startTime] by another [Date]; so it
    has the properties [id] and [_id] with one and the same value, its
    [startTime] is a [Date] and its [duration] is a number. *)
Theorem cache_normalized (history : list event) :
  Forall (fun t => from_normalizeTask t /\ normalized t)
         (tasks (run history constructor)).
Proof.
  assert (H : Forall from_normalizeTask (tasks (run history constructor))).
  { apply (run_invariant (fun m => Forall from_normalizeTask (tasks m)));
      [intros m e; apply step_from | constructor]. }
  eapply Forall_impl; [exact H|].
  intros t Ht. split; [exact Ht | now apply from_normalizeTask_normalized].
Qed.
End ClientClaims.

Section UniqueIds.
Import Js Client.
Context {R : Runtime}.
Implicit Types (m : Manager) (task data : gmap string json)
  (t : gmap string jsval) (l : list (gmap string jsval)) (id : jsval).

Lemma ids_unique_intro l :
  (forall i j ti tj, l !! i = Some ti -> l !! j = Some tj -> (i < j)%nat ->
                     has_id (get ti "_id") tj = false) ->
  ids_unique l = true.
Proof.
  induction l as [|a l IH]; intros H; [reflexivity|].
  cbn. apply andb_true_iff. split.
  - apply negb_true_iff.
    destruct (existsb (has_id (get a "_id")) l) eqn:He; [|reflexivity].
    apply existsb_exists in He as (tj & Hin & Hh).
    apply list_elem_of_In, list_elem_of_lookup in Hin as [j Hj].
    rewrite (H 0%nat (S j) a tj) in Hh; [discriminate | reflexivity | exact Hj | lia].
  - apply IH. intros i j ti tj Hi Hj Hlt.
    apply (H (S i) (S j)); [exact Hi | exact Hj | lia].
Qed.

Lemma strict_eq_congr a b c :
  strict_eq a b = true -> strict_eq a c = strict_eq b c.
Proof.
  intros Hab.
  destruct (strict_eq a c) eqn:Hac, (strict_eq b c) eqn:Hbc; try reflexivity.
  - rewrite strict_eq_sym in Hab.
    rewrite (strict_eq_trans b a c Hab Hac) in Hbc. discriminate.
  - rewrite (strict_eq_trans a b c Hab Hbc) in Hac. discriminate.
Qed.

(** Replacing an entry by one whose [_id] compares like the old one with
    every value keeps the identifiers distinct. *)
Lemma ids_unique_insert l i ti t :
  ids_unique l = true -> l !! i = Some ti ->
  (forall c, strict_eq (get t "_id") c = strict_eq (get ti "_id") c) ->
  ids_unique (<[i := t]> l) = true.
Proof.
  intros Hu Hi Hsame. apply ids_unique_intro.
  assert (Hlen : (i < length l)%nat) by (eapply lookup_lt_Some; eauto).
  intros j k tj tk Hj Hk Hjk. unfold has_id.
  destruct (decide (i = j)) as [<-|Hij].
  - rewrite list_lookup_insert_eq in Hj by exact Hlen. injection Hj as <-.
    rewrite list_lookup_insert_ne in Hk by lia.
    rewrite strict_eq_sym, Hsame, strict_eq_sym.
    exact (ids_unique_lookup l i k ti tk Hu Hi Hk Hjk).
  - rewrite list_lookup_insert_ne in Hj by exact Hij.
    destruct (decide (i = k)) as [<-|Hik].
    + rewrite list_lookup_insert_eq in Hk by exact Hlen. injection Hk as <-.
      rewrite Hsame.
      exact (ids_unique_lookup l j i tj ti Hu Hj Hi Hjk).
    + rewrite list_lookup_insert_ne in Hk by exact Hik.
      exact (ids_unique_lookup l j k tj tk Hu Hj Hk Hjk).
Qed.

Lemma ids_unique_delete l i :
  ids_unique l = true -> ids_unique (splice1 i l) = true.
Proof.
  intros Hu. apply ids_unique_intro. unfold splice1.
  intros j k tj tk Hj Hk Hjk. rewrite list_lookup_delete in Hj, Hk.
  eapply (ids_unique_lookup l _ _ tj tk Hu Hj Hk).
  repeat case_decide; lia.
Qed.

Lemma ids_unique_push l t :
  ids_unique l = true -> findIndex (has_id (get t "_id")) l = None ->
  ids_unique (l ++ [t]) = true.
Proof.
  intros Hu Hnone. apply ids_unique_intro.
  intros j k tj tk Hj Hk Hjk.
  destruct (decide (k < length l)%nat) as [Hlt|Hge].
  - rewrite lookup_app_l in Hj, Hk by lia.
    exact (ids_unique_lookup l j k tj tk Hu Hj Hk Hjk).
  - assert (Hk' : k = length l).
    { apply lookup_lt_Some in Hk. rewrite length_app in Hk. cbn in Hk. lia. }
    subst k. rewrite lookup_app_l in Hj by lia.
    rewrite lookup_app_r, Nat.sub_diag in Hk by lia. injection Hk as <-.
    unfold has_id. rewrite strict_eq_sym.
    apply (proj1 (findIndex_None _ _) Hnone tj).
    apply list_elem_of_lookup. eauto.
Qed.

(** The normalised form of a record with a truthy [_id] compares like that
    [_id]. *)
Lemma normalizeTask_compares task c :
  truthy (prop task "_id") = true ->
  strict_eq (get (normalizeTask task) "_id") c = strict_eq (prop task "_id") c.
Proof.
  intros Ht. unfold get. rewrite normalizeTask__id. cbn. unfold logical_or. now rewrite Ht.
Qed.

Lemma replace_by_record l i ti task :
  ids_unique l = true -> l !! i = Some ti ->
  truthy (prop task "_id") = true -> has_id (prop task "_id") ti = true ->
  ids_unique (<[i := normalizeTask task]> l) = true.
Proof.
  intros Hu Hi Ht Hmatch. apply (ids_unique_insert l i ti); [exact Hu | exact Hi |].
  intros c. rewrite (normalizeTask_compares task c Ht).
  symmetry. apply strict_eq_congr. exact Hmatch.
Qed.

Lemma push_record l task :
  ids_unique l = true -> truthy (prop task "_id") = true ->
  findIndex (has_id (prop task "_id")) l = None ->
  ids_unique (l ++ [normalizeTask task]) = true.
Proof.
  intros Hu Ht Hnone. apply ids_unique_push; [exact Hu|].
  apply findIndex_None. intros t Hin. unfold has_id.
  rewrite strict_eq_sym, (normalizeTask_compares task _ Ht), strict_eq_sym.
  exact (proj1 (findIndex_None _ _) Hnone t Hin).
Qed.

Lemma handleTaskDeleted_tasks data m :
  tasks (handleTaskDeleted data m) =
  match findIndex (has_id (prop data "id")) (tasks m) with
  | Some index => splice1 index (tasks m)
  | None => tasks m
  end.
Proof.
  unfold handleTaskDeleted. destruct (findIndex _ _); [|reflexivity].
  destruct (selectedTask m) as [sel|]; [destruct (has_id _ sel)|]; reflexivity.
Qed.

(** The identifiers of the cache stay distinct along every transition whose
    event is as the store and the server make it. *)
Lemma step_ids_unique m e :
  expected m e -> ids_unique (tasks m) = true ->
  ids_unique (tasks (step m e)) = true.
Proof.
  intros He Hu.
  destruct e as [l| |now rnd|tempId newTask|tempId|updatedTask|taskId|msg
                 |i|[i|]| |i timeDelta]; cbn in *; try exact Hu.
  - exact He.
  - unfold saveTaskToAPI_created. cbn.
    destruct (findIndex _ (tasks m)) eqn:Hi; cbn; [exact Hu|].
    now apply push_record.
  - unfold saveTaskToAPI_updated. destruct He as [Htruthy He].
    destruct (editingTask m) as [editing|]; [|exact Hu].
    specialize (He editing eq_refl).
    destruct (findIndex _ (tasks m)) as [k|] eqn:Hk; [|exact Hu].
    apply findIndex_Some in Hk as (tk & Htk & Hmatch & _). cbn.
    apply (replace_by_record _ k tk); [exact Hu | exact Htk | exact Htruthy |].
    unfold has_id in *. exact (strict_eq_trans _ _ _ Hmatch He).
  - unfold deleteTaskFromAPI_resolved.
    destruct (findIndex _ (tasks m)) as [k|]; cbn;
      (destruct (selectedTask m) as [sel|]; [destruct (has_id _ sel)|]);
      cbn; try exact Hu; now apply ids_unique_delete.
  - unfold handleWebSocketMessage.
    destruct (String.eqb (type msg) "task:created") eqn:Hc.
    + destruct (_ && _); [exact Hu|].
      destruct He as [Hd|Ht].
      { apply String.eqb_eq in Hc, Hd. congruence. }
      unfold handleTaskCreated.
      destruct (findIndex _ (tasks m)) eqn:Hi; cbn; [exact Hu|].
      now apply push_record.
    + destruct (String.eqb (type msg) "task:updated") eqn:Hup.
      * destruct He as [Hd|Ht].
        { apply String.eqb_eq in Hup, Hd. congruence. }
        unfold handleTaskUpdated.
        destruct (findIndex _ (tasks m)) as [k|] eqn:Hk; [|exact Hu].
        apply findIndex_Some in Hk as (tk & Htk & Hmatch & _). cbn.
        now apply (replace_by_record _ k tk).
      * destruct (String.eqb (type msg) "task:deleted"); [|exact Hu].
        rewrite handleTaskDeleted_tasks.
        destruct (findIndex _ (tasks m)); [now apply ids_unique_delete | exact Hu].
  - now destruct (tasks m !! i).
  - now destruct (tasks m !! i).
  - unfold onMouseMove. destruct (tasks m !! i) as [dragTask|] eqn:Hi; [|exact Hu].
    destruct (get dragTask "startTime"); try exact Hu.
    cbn. apply (ids_unique_insert _ i dragTask); [exact Hu | exact Hi |].
    intros c. unfold get. now rewrite lookup_insert_ne by discriminate.
Qed.

(** Starting from the constructor, a history of expected events leaves the
    identifiers of the cache distinct. *)
Lemma run_ids_unique es :
  (forall k e, es !! k = Some e -> expected (run (take k es) constructor) e) ->
  ids_unique (tasks (run es constructor)) = true.
Proof.
  induction es as [|e es IH] using rev_ind; intros H; [reflexivity|].
  rewrite run_snoc. apply step_ids_unique.
  - specialize (H (length es) e). rewrite take_app_length in H.
    apply H. rewrite lookup_app_r, Nat.sub_diag by lia. reflexivity.
  - apply IH. intros k e' Hk.
    assert (Hlt : (k < length es)%nat) by (eapply lookup_lt_Some; eauto).
    specialize (H k e'). rewrite take_app_le in H by lia.
    apply H. rewrite lookup_app_l by lia. exact Hk.
Qed.

(** The direct response first, the echo after it: the token is no longer
    pending, and the identifier test of [handleTaskCreated] keeps the echo
    out of the cache. *)
Lemma response_then_echo m tempId newTask data :
  truthy (prop newTask "_id") = true ->
  prop data "_id" = prop newTask "_id" ->
  let m1 := saveTaskToAPI_created tempId newTask m in
  tasks (handleWebSocketMessage {| type := "task:created"; data := data |} m1)
  = tasks m1.
Proof.
  intros Ht Hid m1. unfold handleWebSocketMessage.
  cbn [Client.type Client.data String.eqb Ascii.eqb Bool.eqb].
  destruct (_ && _); [reflexivity|].
  unfold handleTaskCreated. rewrite Hid.
  destruct (findIndex (has_id (prop newTask "_id")) (tasks m1)) eqn:Hi;
    [reflexivity|].
  exfalso. unfold m1, saveTaskToAPI_created in Hi. cbn in Hi.
  destruct (findIndex (has_id (prop newTask "_id")) (tasks m)) eqn:Hm;
    cbn in Hi; [congruence|].
  rewrite <- count_id_zero, count_id_app in Hi.
  unfold count_id in Hi at 2. cbn in Hi.
  rewrite (has_id_normalizeTask newTask Ht) in Hi. cbn in Hi. lia.
Qed.
End UniqueIds.

Section Witnesses.
Import Js Client Samples.
Local Existing Instance ExampleRuntime.runtime.

Lemma echo_suppression_witness :
  tasks (handleWebSocketMessage {| type := "task:created"; data := echo |}
           (run [CreateStarted "1735722000000" "k3j9x0a1b"] constructor))
    = [] /\
  pendingCreations
    (handleWebSocketMessage {| type := "task:created"; data := echo |}
       (run [CreateStarted "1735722000000" "k3j9x0a1b"] constructor))
    = ({[token]} ∪ ∅) ∖ {[token]}.
Proof.
  destruct (echo_suppression (R := ExampleRuntime.runtime)
              [CreateStarted "1735722000000" "k3j9x0a1b"] token echo)
    as (Ht & Hp & _).
  - apply elem_of_union_l, elem_of_singleton. reflexivity.
  - reflexivity.
  - split; [exact Ht | exact Hp].
Defined.

Lemma updated_broadcast_handling_witness :
  tasks (handleWebSocketMessage
           {| type := "task:updated"; data := <["title" := JStr "Daily"]> standup |}
           loaded)
    = [normalizeTask (<["title" := JStr "Daily"]> standup)] /\
  tasks (handleWebSocketMessage {| type := "task:updated"; data := review |}
           loaded)
    = tasks loaded.
Proof.
  pose proof (updated_broadcast_handling (R := ExampleRuntime.runtime) loaded
                (<["title" := JStr "Daily"]> standup)) as (Hfound & _).
  pose proof (updated_broadcast_handling (R := ExampleRuntime.runtime) loaded
                review) as (_ & Hmissing & _).
  split.
  - apply (Hfound 0%nat (normalizeTask standup)).
    + reflexivity.
    + vm_compute. reflexivity.
    + intros j u Hj. lia.
  - apply Hmissing. intros t Ht.
    apply list_elem_of_singleton in Ht as ->. vm_compute. reflexivity.
Defined.

(** C4, counterexample to the claim as worded: an [updated] event for a
    task that the cache does not hold is not inserted; the cache stays as
    it was, without an entry for that identifier. *)
Lemma updated_unknown_id_not_inserted :
  tasks (handleWebSocketMessage {| type := "task:updated"; data := review |}
           loaded)
    = [normalizeTask standup] /\
  count_id (VStr "65a1b2c3d4e5f60718293a4c")
    (tasks (handleWebSocketMessage {| type := "task:updated"; data := review |}
              loaded))
    = 0%nat.
Proof. split; vm_compute; reflexivity. Qed.



Lemma updated_idempotent_witness :
  handleWebSocketMessage
    {| type := "task:updated"; data := <["title" := JStr "Daily"]> standup |}
    (handleWebSocketMessage
       {| type := "task:updated"; data := <["title" := JStr "Daily"]> standup |}
       loaded2)
  = handleWebSocketMessage
      {| type := "task:updated"; data := <["title" := JStr "Daily"]> standup |}
      loaded2.
Proof.
  apply (updated_idempotent (R := ExampleRuntime.runtime) loaded2
           (<["title" := JStr "Daily"]> standup)).
  left. vm_compute. reflexivity.
Defined.
End Witnesses.

Section ServerWitnesses.
Import Js Server Samples.

End ServerWitnesses.

Section BackoffFacts.
Import Reconnect Backoff.
Local Open Scope Z_scope.

Lemma run_app es1 es2 ws :
  run (es1 ++ es2) ws =
  ((run es2 (run es1 ws).1).1, (run es1 ws).2 ++ (run es2 (run es1 ws).1).2).
Proof.
  revert ws. induction es1 as [|e es1 IH]; intros ws.
  - cbn. now destruct (run es2 ws).
  - cbn [app run]. destruct (handle ws e) as [ws1 out1].
    rewrite IH. destruct (run es1 ws1) as [ws2 out2]. cbn.
    now rewrite app_assoc.
Qed.

(** One callback from a configured state whose counter is within bounds:
    the counter stays within bounds and a timer, if one is set, has delay
    1000 times the new counter. *)
Lemma handle_bounded ws e :
  configured ws -> 0 <= reconnectAttempts ws <= 5 ->
  0 <= reconnectAttempts (handle ws e).1 <= 5 /\
  (forall d, In d (delays (handle ws e).2) ->
             d = 1000 * reconnectAttempts (handle ws e).1 /\
             1 <= reconnectAttempts (handle ws e).1).
Proof.
  intros [Hm Hd] Ha.
  destruct e; cbn; unfold attemptReconnect; cbn; rewrite ?Hm.
  - split; [lia | intros d []].
  - destruct (Z.ltb_spec (reconnectAttempts ws) 5); cbn.
    + split; [lia|]. intros d [<-|[]]. rewrite Hd. split; lia.
    + split; [lia | intros d []].
  - split; [lia | intros d []].
  - destruct (Z.ltb_spec (reconnectAttempts ws) 5); cbn.
    + split; [lia|]. intros d [<-|[]]. rewrite Hd. split; lia.
    + split; [lia | intros d []].
Qed.

Lemma run_bounded es : forall ws,
  configured ws -> 0 <= reconnectAttempts ws <= 5 ->
  0 <= reconnectAttempts (run es ws).1 <= 5 /\
  (forall d, In d (delays (run es ws).2) ->
             exists k, 1 <= k <= 5 /\ d = 1000 * k).
Proof.
  induction es as [|e es IH]; intros ws Hc Ha.
  - cbn. split; [exact Ha | intros d []].
  - cbn [run].
    pose proof (handle_bounded ws e Hc Ha) as [Ha1 Hd1].
    pose proof (handle_configured ws e Hc) as Hc1.
    destruct (handle ws e) as [ws1 out1]. cbn [fst snd] in *.
    destruct (IH ws1 Hc1 Ha1) as [Ha2 Hd2].
    destruct (run es ws1) as [ws2 out2]. cbn [fst snd] in *.
    split; [exact Ha2|]. intros d Hin. rewrite delays_app in Hin.
    apply in_app_or in Hin as [Hin|Hin].
    + destruct (Hd1 d Hin) as [-> Hk].
      exists (reconnectAttempts ws1). split; [lia | reflexivity].
    + exact (Hd2 d Hin).
Qed.

(** X1 (bounded backoff). Whatever callbacks arrive and in whatever order
    after construction, the attempt counter stays between 0 and 5 and every
    reconnection timer ever set has a delay of 1000, 2000, 3000, 4000 or
    5000 ms. *)
Theorem reconnect_delays_bounded (history : list event) :
  0 <= reconnectAttempts (run history constructor).1 <= 5 /\
  (forall d, In d (delays (run history constructor).2) ->
             exists k, 1 <= k <= 5 /\ d = 1000 * k).
Proof.
  apply run_bounded; [split; reflexivity | cbn; lia].
Qed.

Lemma filter_reconnects_cons e es :
  failures (e :: es) = ((if reconnects e then 1 else 0) + failures es)%nat.
Proof. unfold failures. cbn. now destruct (reconnects e). Qed.

(** A history without a successful open, from a counter at [a <= 5]: the
    callbacks that go through [attemptReconnect] set the timers
    1000(a+1), 1000(a+2), ... until the counter reaches 5; [onerror] sets
    none. *)
Lemma no_open_from es : forall (ws : WebSocketService) (a : nat),
  configured ws -> reconnectAttempts ws = Z.of_nat a -> (a <= 5)%nat ->
  forallb (fun e => negb (opens e)) es = true ->
  delays (run es ws).2
    = (fun i => 1000 * Z.of_nat i) <$> seq (S a) (Nat.min (failures es) (5 - a)) /\
  reconnectAttempts (run es ws).1 = Z.of_nat (a + Nat.min (failures es) (5 - a)).
Proof.
  induction es as [|e es IH]; intros ws a Hc Ha Hle Hno.
  - cbn. rewrite Ha. split; [reflexivity | f_equal; lia].
  - cbn [forallb] in Hno. apply andb_true_iff in Hno as [He Hno].
    rewrite filter_reconnects_cons. cbn [run].
    pose proof (handle_configured ws e Hc) as Hc1.
    destruct Hc as [Hm Hd].
    assert (Hstep :
      (reconnects e = true /\ (a < 5)%nat /\
       reconnectAttempts (handle ws e).1 = Z.of_nat (S a) /\
       delays (handle ws e).2 = [1000 * Z.of_nat (S a)]) \/
      ((reconnects e = false \/ a = 5%nat) /\
       reconnectAttempts (handle ws e).1 = Z.of_nat a /\
       delays (handle ws e).2 = [])).
    { destruct e; try discriminate; cbn; unfold attemptReconnect; cbn;
        rewrite ?Hm, ?Ha, ?Hd;
        try (right; repeat split; auto; fail);
        (destruct (Z.ltb_spec (Z.of_nat a) 5); cbn;
         [left; repeat split; [lia | lia | f_equal; lia]
         |right; repeat split; [right; lia | exact Ha]]). }
    destruct (handle ws e) as [ws1 out1]. cbn [fst snd] in *.
    destruct Hstep as [(Hr & Hlt & Ha1 & Hd1)|(Hr & Ha1 & Hd1)].
    + destruct (IH ws1 (S a) Hc1 Ha1 ltac:(lia) Hno) as [IHd IHa].
      destruct (run es ws1) as [ws2 out2]. cbn [fst snd] in *.
      rewrite Hr, delays_app, Hd1, IHd, IHa.
      replace (Nat.min (1 + failures es) (5 - a))
        with (S (Nat.min (failures es) (5 - S a))) by lia.
      cbn [seq fmap list_fmap app]. split; [reflexivity | f_equal; lia].
    + destruct (IH ws1 a Hc1 Ha1 Hle Hno) as [IHd IHa].
      destruct (run es ws1) as [ws2 out2]. cbn [fst snd] in *.
      rewrite delays_app, Hd1, IHd, IHa. cbn [app].
      assert (Hmin : Nat.min ((if reconnects e then 1 else 0) + failures es) (5 - a)
                     = Nat.min (failures es) (5 - a)).
      { destruct Hr as [->| ->]; [reflexivity|]. lia. }
      rewrite Hmin. split; reflexivity.
Qed.

(** X2 (no reconnection storm). In a history without a successful open,
    however closes, errors and failed constructions interleave, the timers
    set are exactly those of the first five callbacks that go through
    [attemptReconnect], with delays 1000, 2000, ... in that order; errors
    alone set none, and after the fifth the supervisor sets no timer until a
    connection opens. *)
Theorem reconnect_without_open (history : list event) :
  forallb (fun e => negb (opens e)) history = true ->
  delays (run history constructor).2
    = (fun i => 1000 * Z.of_nat i) <$> seq 1 (Nat.min (failures history) 5) /\
  reconnectAttempts (run history constructor).1
    = Z.of_nat (Nat.min (failures history) 5).
Proof.
  intros Hno.
  destruct (no_open_from history constructor 0%nat) as [Hd Ha];
    [split; reflexivity | reflexivity | lia | exact Hno |].
  replace (5 - 0)%nat with 5%nat in * by lia. split; [exact Hd | exact Ha].
Qed.

Lemma reconnect_without_open_witness :
  delays (run [OnError; OnClose; ConnectThrows; OnError; OnClose; OnClose;
               OnClose; OnClose; OnError; OnClose] constructor).2
  = [1000; 2000; 3000; 4000; 5000].
Proof.
  exact (proj1 (reconnect_without_open
                  [OnError; OnClose; ConnectThrows; OnError; OnClose; OnClose;
                   OnClose; OnClose; OnError; OnClose] eq_refl)).
Defined.
End BackoffFacts.

Section TimelineFacts.
Import Coord Timeline.
Local Open Scope Q_scope.

(** X3 (time axis). In a valid view the map from timestamps to pixels
    keeps the order of timestamps, sends the centre time
    [currentTime + timelineOffset] to the middle of the container, and turns
    a time gap into a pixel gap of [pixelsPerHour * zoomLevel] pixels per
    hour, wherever on the axis the gap lies. *)
Theorem timeToX_axis (v : View) (t1 t2 containerWidth : Q) :
  valid v ->
  (t1 < t2 ->
   timeToX v t1 containerWidth < timeToX v t2 containerWidth) /\
  timeToX v (currentTime v + timelineOffset v) containerWidth
    == containerWidth / 2 /\
  timeToX v t2 containerWidth - timeToX v t1 containerWidth
    == (t2 - t1) / 3600000 * (pixelsPerHour v * zoomLevel v).
Proof.
  intros (Hlo & _ & Hp).
  assert (Hs : 0 < pixelsPerHour v * zoomLevel v)
    by (apply Qmult_lt_0_compat; lra).
  assert (Hgap : timeToX v t2 containerWidth - timeToX v t1 containerWidth
                 == (t2 - t1) / 3600000 * (pixelsPerHour v * zoomLevel v))
    by (unfold timeToX; cbv zeta; field).
  repeat split.
  - intros Hlt.
    assert (0 < (t2 - t1) / 3600000 * (pixelsPerHour v * zoomLevel v)).
    { apply Qmult_lt_0_compat; [|exact Hs].
      apply Qlt_shift_div_l; lra. }
    lra.
  - unfold timeToX; cbv zeta. field.
  - exact Hgap.
Qed.

Lemma timeToX_axis_witness :
  timeToX (init 1735722000000) 1735722000000 800
    < timeToX (init 1735722000000) 1735725600000 800 /\
  timeToX (init 1735722000000) 1735725600000 800
    - timeToX (init 1735722000000) 1735722000000 800 == 120.
Proof.
  assert (Hv : valid (init 1735722000000))
    by (unfold valid; cbn; repeat split; lra).
  destruct (timeToX_axis (init 1735722000000) 1735722000000 1735725600000
              800 Hv) as (Hlt & _ & Hgap).
  split; [apply Hlt; reflexivity|].
  rewrite Hgap. reflexivity.
Defined.

Lemma zooms_keep_offset cs v :
  forallb (fun c => match c with ZoomIn | ZoomOut => true | _ => false end) cs
    = true ->
  timelineOffset (run cs v) = timelineOffset v /\
  currentTime (run cs v) = currentTime v.
Proof.
  revert v. induction cs as [|c cs IH]; intros v Hz; [split; reflexivity|].
  cbn in Hz. apply andb_true_iff in Hz as [Hc Hz].
  unfold run in *. cbn [foldl].
  destruct (IH (exec v c) Hz) as [-> ->].
  destruct c; try discriminate; split; reflexivity.
Qed.

(** X4 (current-time line). The current-time line is drawn at the middle
    of the container minus the view offset converted to pixels; so right
    after "jump to now", and after any zooming in and out that follows it,
    the line is exactly in the middle, at every zoom factor and container
    width. *)
Theorem indicator_centred (v : View) (zooms : list command) (containerWidth : Q) :
  forallb (fun c => match c with ZoomIn | ZoomOut => true | _ => false end)
          zooms = true ->
  currentTimeIndicator v containerWidth
    == containerWidth / 2
       - timelineOffset v / 3600000 * (pixelsPerHour v * zoomLevel v) /\
  currentTimeIndicator (run zooms (jumpToCurrentTime v)) containerWidth
    == containerWidth / 2.
Proof.
  intros Hz. split.
  - unfold currentTimeIndicator, timeToX; cbv zeta. field.
  - destruct (zooms_keep_offset zooms (jumpToCurrentTime v) Hz) as [Ho Hc].
    unfold currentTimeIndicator, timeToX; cbv zeta.
    rewrite Ho. cbn [timelineOffset jumpToCurrentTime]. field.
Qed.

Lemma indicator_centred_witness :
  currentTimeIndicator
    (run [ZoomIn; ZoomIn; ZoomOut]
         (jumpToCurrentTime (animate 1735722090000 (init 1735722000000))))
    1037
  == 1037 / 2.
Proof.
  exact (proj2 (indicator_centred
                  (animate 1735722090000 (init 1735722000000))
                  [ZoomIn; ZoomIn; ZoomOut] 1037 eq_refl)).
Defined.

Lemma zoomIn_lower (v : View) (a : Q) :
  a <= zoomLevel v -> Qmin (a * 1.5) 5 <= zoomLevel (zoomIn v).
Proof.
  intros H. cbn. apply Q.min_glb.
  - eapply Qle_trans; [apply Q.le_min_l|]. lra.
  - apply Q.le_min_r.
Qed.

Lemma zoomOut_upper (v : View) (a : Q) :
  zoomLevel v <= a -> zoomLevel (zoomOut v) <= Qmax (a / 1.5) 0.2.
Proof.
  intros H. cbn. apply Q.max_lub.
  - eapply Qle_trans; [|apply Q.le_max_l].
    unfold Qdiv. apply Qmult_le_compat_r; [exact H | discriminate].
  - apply Q.le_max_r.
Qed.

Lemma zoomIn_upper (v : View) (a : Q) :
  zoomLevel v <= a -> zoomLevel (zoomIn v) <= Qmin (a * 1.5) 5.
Proof.
  intros H. cbn. apply Q.min_le_compat_r.
  apply Qmult_le_compat_r; [exact H | discriminate].
Qed.

Lemma zoomOut_lower (v : View) (a : Q) :
  a <= zoomLevel v -> Qmax (a / 1.5) 0.2 <= zoomLevel (zoomOut v).
Proof.
  intros H. cbn. apply Q.max_le_compat_r.
  unfold Qdiv. apply Qmult_le_compat_r; [exact H | discriminate].
Qed.

(** X5 (zoom steps move the factor until it saturates). For a zoom factor
    in [[0.2, 5]]: a zoom-in below 5 makes the factor strictly larger and a
    zoom-out above 0.2 strictly smaller; eight zoom-ins in a row always end
    at exactly 5 and eight zoom-outs at exactly 0.2, where a further step in
    the same direction changes nothing; and eight is needed: seven zoom-ins
    from 0.2 stay below 5 and seven zoom-outs from 5 stay above 0.2. *)
Theorem zoom_steps (v : View) :
  0.2 <= zoomLevel v /\ zoomLevel v <= 5 ->
  (zoomLevel v < 5 -> zoomLevel v < zoomLevel (zoomIn v)) /\
  (0.2 < zoomLevel v -> zoomLevel (zoomOut v) < zoomLevel v) /\
  zoomLevel (run (repeat ZoomIn 8) v) == 5 /\
  zoomLevel (run (repeat ZoomOut 8) v) == 0.2 /\
  (zoomLevel v == 5 -> zoomLevel (zoomIn v) == 5) /\
  (zoomLevel v == 0.2 -> zoomLevel (zoomOut v) == 0.2) /\
  (zoomLevel v == 0.2 -> zoomLevel (run (repeat ZoomIn 7) v) < 5) /\
  (zoomLevel v == 5 -> 0.2 < zoomLevel (run (repeat ZoomOut 7) v)).
Proof.
  intros [Hlo Hhi].
  split; [|split; [|split; [|split; [|split; [|split; [|split]]]]]].
  - intros H. cbn. apply Q.min_glb_lt; [lra | exact H].
  - intros H. cbn. apply Q.max_lub_lt; [|exact H].
    apply Qlt_shift_div_r; [reflexivity | lra].
  - apply Qle_antisym.
    + unfold run. cbn [repeat foldl exec]. apply Q.le_min_r.
    + unfold run. cbn [repeat foldl exec].
      eapply Qle_trans; [|apply zoomIn_lower, zoomIn_lower, zoomIn_lower,
        zoomIn_lower, zoomIn_lower, zoomIn_lower, zoomIn_lower, zoomIn_lower,
        Hlo].
      vm_compute. discriminate.
  - apply Qle_antisym.
    + unfold run. cbn [repeat foldl exec].
      eapply Qle_trans; [apply zoomOut_upper, zoomOut_upper, zoomOut_upper,
        zoomOut_upper, zoomOut_upper, zoomOut_upper, zoomOut_upper,
        zoomOut_upper, Hhi|].
      vm_compute. discriminate.
    + unfold run. cbn [repeat foldl exec]. apply Q.le_max_r.
  - intros H. cbn. apply Q.min_r. rewrite H. vm_compute. discriminate.
  - intros H. cbn. apply Q.max_r. rewrite H. vm_compute. discriminate.
  - intros H. unfold run. cbn [repeat foldl exec].
    eapply Qle_lt_trans; [apply zoomIn_upper, zoomIn_upper, zoomIn_upper,
      zoomIn_upper, zoomIn_upper, zoomIn_upper, zoomIn_upper;
      rewrite H; apply Qle_refl|].
    vm_compute. reflexivity.
  - intros H. unfold run. cbn [repeat foldl exec].
    eapply Qlt_le_trans; [|apply zoomOut_lower, zoomOut_lower, zoomOut_lower,
      zoomOut_lower, zoomOut_lower, zoomOut_lower, zoomOut_lower;
      rewrite H; apply Qle_refl].
    vm_compute. reflexivity.
Qed.

Lemma zoom_steps_witness :
  zoomLevel (init 0) < zoomLevel (zoomIn (init 0)) /\
  zoomLevel (zoomOut (init 0)) < zoomLevel (init 0) /\
  zoomLevel (run (repeat ZoomIn 8) (init 0)) == 5 /\
  zoomLevel (run (repeat ZoomOut 8) (init 0)) == 0.2.
Proof.
  assert (H : 0.2 <= zoomLevel (init 0) /\ zoomLevel (init 0) <= 5)
    by (cbn; split; lra).
  destruct (zoom_steps (init 0) H) as (Hup & Hdown & Hin & Hout & _).
  split; [apply Hup; reflexivity|].
  split; [apply Hdown; reflexivity|].
  split; [exact Hin | exact Hout].
Defined.
End TimelineFacts.

Section DragFacts.
Import Js Coord Timeline.
Local Open Scope Q_scope.

(** Truncation towards zero moves a number by less than one. *)
Lemma trunc_close (q : Q) :
  q - 1 < inject_Z (Z.quot (Qnum q) (Zpos (Qden q))) /\
  inject_Z (Z.quot (Qnum q) (Zpos (Qden q))) < q + 1.
Proof.
  destruct q as [a b]. cbn [Qnum Qden].
  pose proof (Z.quot_rem' a (Zpos b)) as Hqr.
  assert (Hrem : (Z.abs (Z.rem a (Zpos b)) < Zpos b)%Z).
  { pose proof (Z.rem_bound_abs a (Zpos b) ltac:(lia)). lia. }
  unfold Qlt, Qminus, Qplus, Qopp, inject_Z. cbn.
  split; nia.
Qed.

(** X6 (a dragged task follows the pointer). In a valid view, moving the
    pointer by [deltaX] pixels while dragging the task at position [i]
    replaces that task's [startTime] by a date whose pixel position differs
    from the old position plus [deltaX] by less than the width of one
    millisecond ([pixelsPerHour * zoomLevel / 3600000] pixels, the effect of
    a [Date] holding whole milliseconds); all other entries of the cache are
    left alone. *)
Theorem drag_follows_pointer (v : View) (m : Client.Manager) (i : nat)
    (task : gmap string jsval) (ms : Z) (deltaX containerWidth : Q) :
  valid v ->
  Client.tasks m !! i = Some task ->
  get task "startTime" = VDate (Some ms) ->
  Qabs (inject_Z ms + timeDelta v deltaX) <= 8640000000000000 ->
  exists ms' : Z,
    Client.tasks (Client.onMouseMove i (timeDelta v deltaX) m) !! i
      = Some (<["startTime" := VDate (Some ms')]> task) /\
    timeToX v (inject_Z ms) containerWidth + deltaX
      - pixelsPerHour v * zoomLevel v / 3600000
      < timeToX v (inject_Z ms') containerWidth /\
    timeToX v (inject_Z ms') containerWidth
      < timeToX v (inject_Z ms) containerWidth + deltaX
        + pixelsPerHour v * zoomLevel v / 3600000 /\
    (forall j, j <> i ->
       Client.tasks (Client.onMouseMove i (timeDelta v deltaX) m) !! j
       = Client.tasks m !! j).
Proof.
  intros (Hlo & _ & Hp) Hi Hst Hrange.
  assert (Hs : 0 < pixelsPerHour v * zoomLevel v)
    by (apply Qmult_lt_0_compat; lra).
  set (q := inject_Z ms + timeDelta v deltaX) in *.
  exists (Z.quot (Qnum q) (Zpos (Qden q))).
  assert (Hmove :
    Client.tasks (Client.onMouseMove i (timeDelta v deltaX) m)
    = <[i := <["startTime" := VDate (Some (Z.quot (Qnum q) (Zpos (Qden q))))]>
              task]> (Client.tasks m)).
  { unfold Client.onMouseMove. rewrite Hi, Hst. cbn [Client.tasks Client.set_tasks].
    unfold time_clip. fold q.
    apply Qle_bool_iff in Hrange. rewrite Hrange. reflexivity. }
  rewrite Hmove.
  assert (Hlen : (i < length (Client.tasks m))%nat)
    by (eapply lookup_lt_Some; eauto).
  destruct (trunc_close q) as [Hl Hu].
  set (t' := inject_Z (Z.quot (Qnum q) (Zpos (Qden q)))) in *.
  set (c := pixelsPerHour v * zoomLevel v / 3600000).
  assert (Hc : 0 < c) by (apply Qlt_shift_div_l; lra).
  assert (Hpos : timeToX v t' containerWidth
                 == timeToX v (inject_Z ms) containerWidth + deltaX
                    + (t' - q) * c).
  { unfold timeToX, c, q, timeDelta; cbv zeta. field. lra. }
  assert (Hlow : (-1) * c < (t' - q) * c)
    by (apply Qmult_lt_compat_r; [exact Hc | lra]).
  assert (Hupp : (t' - q) * c < 1 * c)
    by (apply Qmult_lt_compat_r; [exact Hc | lra]).
  split; [now apply list_lookup_insert_eq|].
  split; [rewrite Hpos; lra|].
  split; [rewrite Hpos; lra|].
  intros j Hj. now apply list_lookup_insert_ne.
Qed.

Lemma drag_follows_pointer_witness :
  exists ms' : Z,
    Client.tasks
      (Client.onMouseMove 0 (timeDelta (init 1735722000000) 60) Samples.loaded)
      !! 0%nat
      = Some (<["startTime" := VDate (Some ms')]>
                (Client.normalizeTask (R := ExampleRuntime.runtime)
                   Samples.standup)) /\
    timeToX (init 1735722000000) (inject_Z 1735722000000) 800 + 60
      - pixelsPerHour (init 1735722000000) * zoomLevel (init 1735722000000)
        / 3600000
      < timeToX (init 1735722000000) (inject_Z ms') 800.
Proof.
  destruct (drag_follows_pointer (init 1735722000000) Samples.loaded 0
              (Client.normalizeTask (R := ExampleRuntime.runtime)
                 Samples.standup)
              1735722000000 60 800) as (ms' & Hentry & Hlow & _).
  - unfold valid; cbn; repeat split; lra.
  - reflexivity.
  - vm_compute. reflexivity.
  - vm_compute. discriminate.
  - exists ms'. split; [exact Hentry | exact Hlow].
Defined.

Lemma row_bounds (index : nat) :
  0 <= inject_Z (Z.of_nat (index mod 6)) /\
  inject_Z (Z.of_nat (index mod 6)) <= 5.
Proof.
  pose proof (Nat.mod_upper_bound index 6 ltac:(lia)) as H.
  split.
  - change 0 with (inject_Z 0). rewrite <- Zle_Qle. lia.
  - change 5 with (inject_Z 5). rewrite <- Zle_Qle. lia.
Qed.

(** X7 (placement of a task on the timeline). Every task that is drawn
    gets a box at least 100 pixels wide (and as wide as its duration at the
    current scale when that is more), 40 pixels high, starting at a
    non-negative position not left of the task's start, in one of the six
    rows between 100 and 350 pixels; positions six apart in the array share
    a row; and a task whose start falls inside the container is never
    skipped. *)
Theorem renderTask_placement (v : View) (startTime duration : Q) (index : nat)
    (containerWidth : Q) :
  (forall box,
     renderTask v startTime duration index containerWidth = Some box ->
     100 <= width box /\
     duration / 60 * pixelsPerHour v * zoomLevel v <= width box /\
     height box == 40 /\
     0 <= left box /\
     timeToX v startTime containerWidth <= left box /\
     100 <= top box /\ top box <= 350) /\
  renderTask v startTime duration (index + 6) containerWidth
    = renderTask v startTime duration index containerWidth /\
  (0 <= timeToX v startTime containerWidth ->
   timeToX v startTime containerWidth <= containerWidth ->
   renderTask v startTime duration index containerWidth <> None).
Proof.
  split; [|split].
  - intros box Hbox. unfold renderTask in Hbox.
    destruct (row_bounds index) as [Hr0 Hr5].
    set (row := inject_Z (Z.of_nat (index mod 6))) in *.
    cbv zeta in Hbox.
    destruct (_ || _); [discriminate|]. injection Hbox as <-.
    cbn [width height left top].
    repeat split.
    + apply Q.le_max_r.
    + apply Q.le_max_l.
    + apply Q.le_max_l.
    + apply Q.le_max_r.
    + lra.
    + lra.
  - unfold renderTask.
    replace ((index + 6) mod 6)%nat with (index mod 6)%nat; [reflexivity|].
    symmetry. exact (Nat.Div0.mod_add index 1 6).
  - intros H0 Hw. unfold renderTask. cbv zeta.
    set (x := timeToX v startTime containerWidth) in *.
    set (wd := Qmax (duration / 60 * pixelsPerHour v * zoomLevel v) 100).
    assert (Hwd : 100 <= wd) by apply Q.le_max_r.
    assert (H1 : Qltb (x + wd) (-100) = false).
    { unfold Qltb. apply negb_false_iff, Qle_bool_iff. lra. }
    assert (H2 : Qltb (containerWidth + 100) x = false).
    { unfold Qltb. apply negb_false_iff, Qle_bool_iff. lra. }
    rewrite H1, H2. discriminate.
Qed.

Lemma renderTask_placement_witness :
  renderTask (init 1735722000000) 1735725600000 15 7 800
    <> None.
Proof.
  destruct (renderTask_placement (init 1735722000000) 1735725600000 15 7 800)
    as (_ & _ & Hvisible).
  apply Hvisible; vm_compute; discriminate.
Defined.
End DragFacts.

Section RegistryFacts.
Import Js Server Queries.
Context {R : Runtime}.
Implicit Types (st : State) (ws : nat) (c : Client) (m : Message).

(** A request either succeeds, with one message appended to the log and
    delivered, or fails and leaves the state as it was. *)
Lemma serve_effect rq st :
  (succeeded (serve rq st).1 = true /\
   exists m, clients (serve rq st).2 = deliver m (clients st) /\
             published (serve rq st).2 = published st ++ [m]) \/
  (succeeded (serve rq st).1 = false /\ (serve rq st).2 = st).
Proof.
  destruct rq as [now oid body|now id body|id]; cbn [serve].
  - unfold post_tasks. destruct (save _ _) as [[task db']|e].
    + left. split; [reflexivity|]. eexists. split; reflexivity.
    + right. split; reflexivity.
  - unfold put_tasks. destruct (findByIdAndUpdate _ _ _ _) as [[[task db']|]|e].
    + left. split; [reflexivity|]. eexists. split; reflexivity.
    + right. split; reflexivity.
    + right. split; reflexivity.
  - unfold delete_tasks. destruct (findByIdAndDelete _ _) as [[[old db']|]|e].
    + left. split; [reflexivity|]. eexists. split; reflexivity.
    + right. split; reflexivity.
    + right. split; reflexivity.
Qed.

End RegistryFacts.

Section RegistryInvariant.
Import Js Server Queries.
Context {R : Runtime}.
Implicit Types (st : State) (ws : nat) (c : Client) (m : Message).

Lemma sockets_deliver m cs : socket <$> deliver m cs = socket <$> cs.
Proof.
  unfold deliver. rewrite <- list_fmap_compose. apply list_fmap_ext.
  intros i c _. cbn. now destruct (is_open c).
Qed.

Lemma sockets_serve rq st :
  socket <$> clients (serve rq st).2 = socket <$> clients st.
Proof.
  destruct (serve_effect rq st) as [(_ & m & -> & _)|(_ & ->)];
    [apply sockets_deliver | reflexivity].
Qed.

Lemma registered_spec ws st :
  registered ws st = true <-> ws ∈ socket <$> clients st.
Proof.
  unfold registered. rewrite existsb_exists, list_elem_of_fmap. split.
  - intros (c & Hin & Heq). apply Nat.eqb_eq in Heq.
    exists c. split; [congruence | now apply list_elem_of_In].
  - intros (c & -> & Hin). exists c.
    split; [now apply list_elem_of_In | apply Nat.eqb_refl].
Qed.

Lemma act_sockets_distinct st a :
  sockets_distinct st -> sockets_distinct (act st a).
Proof.
  unfold sockets_distinct. intros Hd.
  destruct a as [rq|w|w|w rs]; cbn [act].
  - now rewrite sockets_serve.
  - cbn. destruct (existsb _ _) eqn:He; [exact Hd|].
    rewrite fmap_app. cbn. apply NoDup_app. repeat split.
    + exact Hd.
    + intros x Hx Hx'. apply list_elem_of_singleton in Hx'. subst x.
      apply registered_spec in Hx. unfold registered in Hx. congruence.
    + apply NoDup_singleton.
  - cbn. induction (clients st) as [|c cs IH]; [constructor|].
    cbn in Hd. apply NoDup_cons in Hd as [Hc Hd].
    rewrite filter_cons. destruct (decide (socket c <> w)); [|now apply IH].
    cbn. apply NoDup_cons. split; [|now apply IH].
    intros Hin. apply Hc. apply list_elem_of_fmap in Hin as (c' & -> & Hc').
    apply list_elem_of_fmap. exists c'. split; [reflexivity|].
    now apply list_elem_of_filter in Hc' as [_ Hc'].
  - cbn. rewrite <- list_fmap_compose.
    erewrite list_fmap_ext; [exact Hd|].
    intros i c _. cbn. now destruct (Nat.eqb (socket c) w).
Qed.

Lemma act_unregistered ws st a :
  not_connect ws a = true -> registered ws st = false ->
  registered ws (act st a) = false.
Proof.
  intros Ha Hr.
  apply not_true_iff_false. apply not_true_iff_false in Hr.
  intros Hin. apply Hr. apply registered_spec. apply registered_spec in Hin.
  destruct a as [rq|w|w|w rs]; cbn [act] in Hin.
  - now rewrite sockets_serve in Hin.
  - cbn in Hin. destruct (existsb _ _); [exact Hin|].
    rewrite fmap_app in Hin. apply elem_of_app in Hin as [Hin|Hin]; [exact Hin|].
    cbn in Hin. apply list_elem_of_singleton in Hin. subst w.
    cbn in Ha. now rewrite Nat.eqb_refl in Ha.
  - cbn in Hin. apply list_elem_of_fmap in Hin as (c & -> & Hc).
    apply list_elem_of_filter in Hc as [_ Hc].
    apply list_elem_of_fmap. eauto.
  - cbn in Hin. rewrite <- list_fmap_compose in Hin.
    erewrite list_fmap_ext in Hin; [exact Hin|].
    intros i c _. cbn. now destruct (Nat.eqb (socket c) w).
Qed.

Lemma on_close_unregistered ws st : registered ws (on_close ws st) = false.
Proof.
  apply not_true_iff_false. intros Hin. apply registered_spec in Hin.
  cbn in Hin. apply list_elem_of_fmap in Hin as (c & Hs & Hc).
  apply list_elem_of_filter in Hc as [Hne _]. congruence.
Qed.

Lemma unregistered_sent_on ws st :
  registered ws st = false -> sent_on ws st = None.
Proof.
  unfold registered, sent_on. intros Hr.
  destruct (List.find _ _) as [c|] eqn:Hf; [|reflexivity].
  apply find_some in Hf as [Hin Heq].
  assert (He : existsb (fun c => Nat.eqb (socket c) ws) (clients st) = true)
    by (apply existsb_exists; eauto).
  congruence.
Qed.

(** X9 (connection registry). Under any sequence of requests, connections,
    closes and transport changes no socket is ever registered twice; a
    socket that connects while unregistered is registered with nothing sent
    on it yet; and once a socket's [close] event has been handled the socket
    is unregistered and nothing is sent on it, whatever requests follow,
    until it connects again. *)
Theorem registry_tracks_connections (l : list action) st ws :
  (sockets_distinct st -> sockets_distinct (acts l st)) /\
  (registered ws st = false -> sent_on ws (on_connection ws st) = Some []) /\
  (forallb (not_connect ws) l = true ->
   registered ws (acts l (on_close ws st)) = false /\
   sent_on ws (acts l (on_close ws st)) = None).
Proof.
  split; [|split].
  - revert st. induction l as [|a l IH]; intros st Hd; [exact Hd|].
    unfold acts in *. cbn [foldl]. apply IH, act_sockets_distinct, Hd.
  - intros Hr. unfold sent_on, on_connection. cbn [clients].
    unfold registered in Hr. rewrite Hr.
    assert (Hnone : List.find (fun c => Nat.eqb (socket c) ws) (clients st) = None).
    { destruct (List.find _ _) as [c|] eqn:Hf; [|reflexivity].
      apply find_some in Hf as [Hin Heq].
      assert (existsb (fun c => Nat.eqb (socket c) ws) (clients st) = true)
        by (apply existsb_exists; eauto).
      congruence. }
    induction (clients st) as [|c cs IH]; cbn.
    + now rewrite Nat.eqb_refl.
    + cbn in Hnone. destruct (Nat.eqb (socket c) ws); [discriminate|].
      apply IH.
      * cbn in Hr. apply orb_false_iff in Hr as [_ Hr]. exact Hr.
      * exact Hnone.
  - intros Hl.
    assert (Hr : registered ws (acts l (on_close ws st)) = false).
    { generalize (on_close_unregistered ws st).
      generalize (on_close ws st) as st0.
      induction l as [|a l IH]; intros st0 H0; [exact H0|].
      cbn [forallb] in Hl. apply andb_true_iff in Hl as [Ha Hl].
      unfold acts in *. cbn [foldl]. apply (IH Hl).
      now apply act_unregistered. }
    split; [exact Hr | now apply unregistered_sent_on].
Qed.
End RegistryInvariant.

Section Lifecycle.
Import Js Server Queries.
Context {R : Runtime}.
Implicit Types (st : State) (body : gmap string json).

Lemma find_None_findIndex {A} (p : A -> bool) (l : list A) :
  List.find p l = None <-> findIndex p l = None.
Proof.
  induction l as [|a l IH]; cbn; [tauto|].
  destruct (p a); [split; discriminate|].
  rewrite IH. destruct (findIndex p l); cbn; split; congruence.
Qed.

Lemma findIndex_snoc {A} (p : A -> bool) (l : list A) (x : A) :
  findIndex p l = None -> p x = true ->
  findIndex p (l ++ [x]) = Some (length l).
Proof.
  intros Hn Hx. induction l as [|a l IH]; cbn in *; [now rewrite Hx|].
  destruct (p a); [discriminate|].
  destruct (findIndex p l); [discriminate|]. now rewrite IH.
Qed.

Lemma find_snoc {A} (p : A -> bool) (l : list A) (x : A) :
  List.find p l = None -> p x = true -> List.find p (l ++ [x]) = Some x.
Proof.
  intros Hn Hx. induction l as [|a l IH]; cbn in *; [now rewrite Hx|].
  destruct (p a); [discriminate | now apply IH].
Qed.

Lemma delete_snoc {A} (l : list A) (x : A) : delete (length l) (l ++ [x]) = l.
Proof.
  induction l as [|a l IH]; [reflexivity|].
  cbn [length app]. change (delete (S (length l)) (a :: l ++ [x]))
    with (a :: delete (length l) (l ++ [x])). now rewrite IH.
Qed.

Lemma new_Task_id now oid data task :
  new_Task now oid data = inl task -> _id task = oid.
Proof.
  unfold new_Task.
  destruct (title_field data), (startTime_field data), (duration_field data),
    (color_field data), (status_field data), (userId_field data);
    try discriminate.
  intros H. injection H as <-. reflexivity.
Qed.

Lemma post_tasks_Created now oid body st task st1 :
  post_tasks now oid body st = (Created task, st1) ->
  _id task = oid /\ findById oid (db st) = None /\
  db st1 = db st ++ [task] /\ clients st1 = deliver
    {| type := "task:created";
       data := TaskData task (if truthy (prop body "tempId")
                              then body !! "tempId" else None) |} (clients st).
Proof.
  unfold post_tasks.
  destruct (save (db st) _) as [[task' db']|e] eqn:Hs; [|discriminate].
  intros H. injection H as <- <-.
  apply save_inl in Hs as (Hn & Hf & ->).
  apply new_Task_id in Hn. rewrite Hn in Hf. repeat split; assumption.
Qed.

(** X10 (life of a task in the store). Once a POST has answered 201 with a
    task under an identifier that the store can look up, a GET of that
    identifier returns the same task; a DELETE of it then succeeds and
    leaves the stored documents exactly as they were before the POST; after
    that, GET and DELETE of the identifier answer 404, and no PUT on it
    succeeds or changes anything. *)
Theorem task_lifecycle now oid body st task st1 :
  is_object_id oid = true ->
  post_tasks now oid body st = (Created task, st1) ->
  get_task oid st1 = Ok task /\
  exists st2,
    delete_tasks oid st1 = (Deleted, st2) /\
    db st2 = db st /\
    get_task oid st2 = NotFound /\
    delete_tasks oid st2 = (NotFound, st2) /\
    (forall now' body',
       succeeded (put_tasks now' oid body' st2).1 = false /\
       (put_tasks now' oid body' st2).2 = st2).
Proof.
  intros Hoid Hpost.
  apply post_tasks_Created in Hpost as (Hid & Hfresh & Hdb & _).
  assert (Hp : String.eqb (_id task) oid = true)
    by (rewrite Hid; apply String.eqb_refl).
  assert (Hnone : findIndex (fun t => String.eqb (_id t) oid) (db st) = None)
    by (apply find_None_findIndex; exact Hfresh).
  split.
  - unfold get_task, findById. rewrite Hoid, Hdb. cbn.
    now rewrite (find_snoc _ _ task Hfresh Hp).
  - assert (Hdel : findByIdAndDelete oid (db st1)
                   = inl (Some (task, db st))).
    { unfold findByIdAndDelete. rewrite Hoid, Hdb. cbn [negb].
      rewrite (findIndex_snoc _ _ task Hnone Hp).
      rewrite lookup_app_r, Nat.sub_diag by lia. cbn.
      do 3 f_equal. apply delete_snoc. }
    set (st2 := broadcast "task:deleted" (IdData oid) (set_db (db st) st1)).
    assert (Hdb2 : db st2 = db st) by reflexivity.
    unfold findById in Hfresh.
    exists st2. split; [unfold delete_tasks; rewrite Hdel; reflexivity|].
    split; [exact Hdb2|]. split; [|split].
    + unfold get_task, findById. now rewrite Hoid, Hdb2, Hfresh.
    + unfold delete_tasks, findByIdAndDelete. now rewrite Hoid, Hdb2, Hnone.
    + intros now' body'. unfold put_tasks, findByIdAndUpdate.
      rewrite Hoid, Hdb2. cbn [negb]. cbv zeta.
      destruct (List.find is_cast_error _) as [[path k]|];
        [split; reflexivity|].
      match goal with |- context [match ?e with [] => _ | _ :: _ => _ end] =>
        destruct e; [|split; reflexivity] end.
      rewrite Hnone. split; reflexivity.
Qed.
End Lifecycle.

Section Listing.
Import Js Server Queries.
Context {R : Runtime}.
Implicit Types (st : State) (t : Task) (l : list Task).

Lemma insert_by_Permutation {A} (key : A -> Z) x (l : list A) :
  insert_by key x l ≡ₚ x :: l.
Proof.
  induction l as [|y l IH]; [reflexivity|]. cbn.
  destruct (key y <? key x)%Z; [|reflexivity].
  rewrite IH. apply Permutation_swap.
Qed.

Lemma sort_by_Permutation {A} (key : A -> Z) (l : list A) : sort_by key l ≡ₚ l.
Proof.
  induction l as [|x l IH]; [reflexivity|]. cbn.
  now rewrite insert_by_Permutation, IH.
Qed.

Lemma insert_by_sorted {A} (key : A -> Z) x (l : list A) :
  StronglySorted (fun a b => (key a <= key b)%Z) l ->
  StronglySorted (fun a b => (key a <= key b)%Z) (insert_by key x l).
Proof.
  induction 1 as [|y l Hs IH Hall]; cbn.
  - constructor; constructor.
  - destruct (Z.ltb_spec (key y) (key x)) as [Hlt|Hge].
    + constructor; [exact IH|].
      rewrite insert_by_Permutation. constructor; [lia | exact Hall].
    + constructor; [constructor; assumption|].
      constructor; [lia|]. eapply Forall_impl; [exact Hall|].
      intros z Hz. cbn in Hz. lia.
Qed.

Lemma sort_by_sorted {A} (key : A -> Z) (l : list A) :
  StronglySorted (fun a b => (key a <= key b)%Z) (sort_by key l).
Proof.
  induction l as [|x l IH]; cbn; [constructor | now apply insert_by_sorted].
Qed.

(** X11 (listing tasks). The list route answers with the stored tasks that
    pass the filter, each exactly as often as it is stored, in ascending
    order of start time. The filter keeps a task when its start is not
    before [start] and not after [end] (a bound that is missing or empty
    does not restrict) and its status equals [status] (missing, empty or
    ["all"] does not restrict). The route fails exactly when a bound that is
    given does not read as a date. *)
Theorem get_tasks_sorted_filtered (start end_ status : option string) st :
  let lo := match start with
            | Some s => if String.eqb s "" then None else date_parse s
            | None => None
            end in
  let hi := match end_ with
            | Some s => if String.eqb s "" then None else date_parse s
            | None => None
            end in
  let wanted := match status with
                | Some s => if String.eqb s "" || String.eqb s "all"
                            then None else Some s
                | None => None
                end in
  (forall l,
     get_tasks start end_ status st = Listing l ->
     StronglySorted by_startTime l /\
     l ≡ₚ List.filter (matches {| gte := lo; lte := hi; status_is := wanted |})
                      (db st) /\
     (forall t, In t l ->
        In t (db st) /\
        (forall z, lo = Some z -> (z <= startTime t)%Z) /\
        (forall z, hi = Some z -> (startTime t <= z)%Z) /\
        (forall s, wanted = Some s -> Server.status t = Some s))) /\
  ((exists e, get_tasks start end_ status st = ListingFailed e) <->
   (given start = true /\ lo = None) \/ (given end_ = true /\ hi = None)).
Proof.
  intros lo hi wanted.
  assert (Hq : (build_query start end_ status
                = inl {| gte := lo; lte := hi; status_is := wanted |} /\
                ~ ((given start = true /\ lo = None) \/
                   (given end_ = true /\ hi = None))) \/
               ((exists e, build_query start end_ status = inr e) /\
                ((given start = true /\ lo = None) \/
                 (given end_ = true /\ hi = None)))).
  { assert (Hw : match status with
                 | Some s => if given status && negb (String.eqb s "all")
                             then Some s else None
                 | None => None
                 end = wanted).
    { unfold wanted. destruct status as [s|]; [|reflexivity]. cbn.
      destruct (String.eqb s ""), (String.eqb s "all"); reflexivity. }
    unfold build_query, bound, lo, hi. rewrite Hw. clear Hw.
    destruct start as [s|]; destruct end_ as [s'|]; cbn [given];
      try destruct (String.eqb s "") eqn:Hs;
      try destruct (String.eqb s' "") eqn:Hs'; cbn [negb orb];
      try destruct (date_parse s) eqn:Hd;
      try destruct (date_parse s') eqn:Hd';
      try (left; split; [reflexivity | intros [[? ?]|[? ?]]; discriminate]);
      right; (split; [eexists; reflexivity|]);
      try (left; split; reflexivity); right; split; reflexivity. }
  split.
  - intros l Hl. unfold get_tasks in Hl.
    destruct Hq as [[Hq _]|[[e Hq] _]]; rewrite Hq in Hl; [|discriminate].
    injection Hl as <-.
    pose proof (sort_by_Permutation startTime
                  (List.filter (matches {| gte := lo; lte := hi;
                                           status_is := wanted |}) (db st)))
      as Hperm.
    split; [apply sort_by_sorted|]. split; [exact Hperm|].
    intros t Hin. apply list_elem_of_In in Hin. rewrite Hperm in Hin.
    apply list_elem_of_In, filter_In in Hin as [Hin Hm].
    unfold matches in Hm. cbn [gte lte status_is] in Hm.
    apply andb_true_iff in Hm as [Hm Hst].
    apply andb_true_iff in Hm as [Hlo Hhi].
    split; [exact Hin|]. repeat split.
    + intros z Hz. rewrite Hz in Hlo. lia.
    + intros z Hz. rewrite Hz in Hhi. lia.
    + intros s Hs. rewrite Hs in Hst.
      destruct (Server.status t) as [s0|]; [|discriminate].
      apply String.eqb_eq in Hst. now subst.
  - unfold get_tasks.
    destruct Hq as [[Hq Hn]|[[e Hq] Hy]]; rewrite Hq.
    + split; [intros [e He]; discriminate | intros H; contradiction].
    + split; [intros _; exact Hy | intros _; eauto].
Qed.
End Listing.

Section EchoFacts.
Import Js Client.
Context {R : Runtime}.
Implicit Types (m : Manager) (task data : gmap string json)
  (t : gmap string jsval) (l : list (gmap string jsval)) (id : jsval).

Lemma findIndex_ext {A} (p p' : A -> bool) (l : list A) :
  (forall x, p x = p' x) -> findIndex p l = findIndex p' l.
Proof.
  intros H. induction l as [|a l IH]; [reflexivity|].
  cbn. now rewrite H, IH.
Qed.

(** After removing the first entry with an identifier from an array with
    distinct identifiers, no entry has that identifier. *)
Lemma splice_absent l i id :
  ids_unique l = true -> findIndex (has_id id) l = Some i ->
  findIndex (has_id id) (splice1 i l) = None.
Proof.
  intros Hu Hi. apply findIndex_Some in Hi as (ti & Hti & Hmatch & Hbefore).
  apply findIndex_None. intros t Ht.
  apply list_elem_of_lookup in Ht as [j Hj]. unfold splice1 in Hj.
  rewrite list_lookup_delete in Hj.
  destruct (decide (j < i)%nat) as [Hlt|Hge]; [exact (Hbefore j t Hlt Hj)|].
  destruct (has_id id t) eqn:Hh; [|reflexivity].
  assert (i = S j) by exact (ids_unique_one _ _ _ _ _ _ Hu Hti Hj Hmatch Hh).
  lia.
Qed.

Lemma deleteTaskFromAPI_tasks taskId m :
  tasks (deleteTaskFromAPI_resolved taskId m) =
  match findIndex (has_id taskId) (tasks m) with
  | Some index => splice1 index (tasks m)
  | None => tasks m
  end.
Proof.
  unfold deleteTaskFromAPI_resolved.
  destruct (findIndex _ _); cbn;
    (destruct (selectedTask m) as [sel|]; [destruct (has_id _ sel)|]);
    reflexivity.
Qed.

(** X12 (the echo of the client's own delete). On a cache with distinct
    identifiers, once the client has removed a task after its own DELETE was
    answered, no entry has that identifier, the selection is cleared if the
    selected task had it (whether or not an entry was found), and the
    [deleted] broadcast that the server sends for the same identifier
    changes nothing any more. *)
Theorem own_delete_echo m (taskId : jsval) data :
  ids_unique (tasks m) = true ->
  prop data "id" = taskId ->
  let m' := deleteTaskFromAPI_resolved taskId m in
  (forall t, t ∈ tasks m' -> has_id taskId t = false) /\
  (forall sel, selectedTask m = Some sel -> has_id taskId sel = true ->
               selectedTask m' = None) /\
  handleWebSocketMessage {| type := "task:deleted"; data := data |} m' = m'.
Proof.
  intros Hu Hid m'.
  assert (Hnone : findIndex (has_id taskId) (tasks m') = None).
  { unfold m'. rewrite deleteTaskFromAPI_tasks.
    destruct (findIndex (has_id taskId) (tasks m)) as [i|] eqn:Hi;
      [now apply splice_absent | exact Hi]. }
  split; [|split].
  - now apply findIndex_None.
  - intros sel Hsel Hmatch. unfold m', deleteTaskFromAPI_resolved.
    destruct (findIndex (has_id taskId) (tasks m)); cbv zeta;
      cbn [selectedTask set_tasks]; now rewrite Hsel, Hmatch.
  - rewrite on_deleted. unfold handleTaskDeleted. now rewrite Hid, Hnone.
Qed.

(** X13 (the echo of the client's own update). When the answer to an update
    carries a truthy [_id] that is the one of the task being edited, the
    [updated] broadcast of the same record, arriving after the answer has
    been applied, leaves the manager exactly as the answer left it. *)
Theorem own_update_echo m (updatedTask : gmap string json) editing :
  editingTask m = Some editing ->
  truthy (prop updatedTask "_id") = true ->
  has_id (prop updatedTask "_id") editing = true ->
  let m' := saveTaskToAPI_updated updatedTask m in
  handleWebSocketMessage {| type := "task:updated"; data := updatedTask |} m'
  = m'.
Proof.
  intros He Ht Hsame m'. rewrite on_updated.
  assert (Hext : findIndex (has_id (get editing "_id")) (tasks m)
                 = findIndex (has_id (prop updatedTask "_id")) (tasks m)).
  { apply findIndex_ext. intros t. unfold has_id in *.
    rewrite (strict_eq_sym (get t "_id")), (strict_eq_sym (get t "_id")).
    now apply strict_eq_congr. }
  unfold m', saveTaskToAPI_updated. rewrite He, Hext.
  destruct (findIndex (has_id (prop updatedTask "_id")) (tasks m))
    as [k|] eqn:Hk.
  - pose proof Hk as Hk'.
    apply findIndex_Some in Hk' as (tk & Htk & _ & Hbefore).
    assert (Hlen : (k < length (tasks m))%nat) by (eapply lookup_lt_Some; eauto).
    unfold handleTaskUpdated. cbn [tasks set_tasks].
    rewrite (findIndex_first _ _ k (normalizeTask updatedTask)).
    + unfold set_tasks. cbn. now rewrite list_insert_insert_eq.
    + now apply list_lookup_insert_eq.
    + now apply has_id_normalizeTask.
    + intros j u Hj Hu. rewrite list_lookup_insert_ne in Hu by lia.
      exact (Hbefore j u Hj Hu).
  - unfold handleTaskUpdated. now rewrite Hk.
Qed.
End EchoFacts.

Section OtherClients.
Import Js Client Wire.
Context {R : Runtime}.
Implicit Types (m : Manager) (task data : gmap string json)
  (t : gmap string jsval) (l : list (gmap string jsval)) (id : jsval).

Lemma findIndex_push {A} (p : A -> bool) (l : list A) (x : A) :
  findIndex p l = None -> p x = true ->
  findIndex p (l ++ [x]) = Some (length l).
Proof.
  intros Hn Hx. induction l as [|a l IH]; cbn in *; [now rewrite Hx|].
  destruct (p a); [discriminate|].
  destruct (findIndex p l); [discriminate|]. now rewrite IH.
Qed.

Lemma splice_push {A} (l : list A) (x : A) : splice1 (length l) (l ++ [x]) = l.
Proof.
  unfold splice1. induction l as [|a l IH]; [reflexivity|].
  cbn [length app]. change (delete (S (length l)) (a :: l ++ [x]))
    with (a :: delete (length l) (l ++ [x])). now rewrite IH.
Qed.

(** X14 (a task created by another client). A [created] broadcast that is
    not the echo of a pending creation, for a record with a truthy [_id]:
    the record is appended, normalised, when no entry has its identifier and
    the cache is left alone otherwise; a second delivery of the same event
    changes nothing; and if the identifier was new, a [deleted] broadcast
    for it brings the task list back to what it was. *)
Theorem created_by_another_client m data :
  truthy (prop data "_id") = true ->
  truthy (prop data "tempId") && has (pendingCreations m) (prop data "tempId")
    = false ->
  let created := {| type := "task:created"; data := data |} in
  let m' := handleWebSocketMessage created m in
  (count_id (prop data "_id") (tasks m) = 0%nat ->
   tasks m' = tasks m ++ [normalizeTask data]) /\
  (count_id (prop data "_id") (tasks m) <> 0%nat -> m' = m) /\
  handleWebSocketMessage created m' = m' /\
  (forall deleted,
     count_id (prop data "_id") (tasks m) = 0%nat ->
     prop deleted "id" = prop data "_id" ->
     tasks (handleWebSocketMessage {| type := "task:deleted"; data := deleted |}
              m') = tasks m).
Proof.
  intros Ht Hother created m'.
  assert (Hm' : m' = handleTaskCreated data m).
  { unfold m', created, handleWebSocketMessage.
    cbn [Client.type Client.data String.eqb Ascii.eqb Bool.eqb].
    now rewrite Hother. }
  clearbody m'. subst m'.
  assert (Hnew : count_id (prop data "_id") (tasks m) = 0%nat ->
                 tasks (handleTaskCreated data m)
                 = tasks m ++ [normalizeTask data]).
  { intros H0. apply count_id_zero in H0.
    unfold handleTaskCreated. now rewrite H0. }
  assert (Hfound : exists k, findIndex (has_id (prop data "_id"))
                               (tasks (handleTaskCreated data m)) = Some k).
  { unfold handleTaskCreated.
    destruct (findIndex (has_id (prop data "_id")) (tasks m)) as [k|] eqn:Hi0.
    - exists k. exact Hi0.
    - exists (length (tasks m)). cbn.
      exact (findIndex_push _ _ _ Hi0 (has_id_normalizeTask data Ht)). }
  split; [exact Hnew|]. split; [|split].
  - intros Hn. unfold handleTaskCreated.
    destruct (findIndex (has_id (prop data "_id")) (tasks m)) eqn:Hi;
      [reflexivity|].
    apply count_id_zero in Hi. contradiction.
  - unfold created, handleWebSocketMessage.
    cbn [Client.type Client.data String.eqb Ascii.eqb Bool.eqb].
    rewrite handleTaskCreated_pending, Hother.
    destruct Hfound as [k Hk].
    unfold handleTaskCreated at 1. now rewrite Hk.
  - intros deleted H0 Hid. rewrite on_deleted, handleTaskDeleted_tasks.
    rewrite Hid, (Hnew H0). apply count_id_zero in H0.
    rewrite (findIndex_push _ _ _ H0 (has_id_normalizeTask data Ht)).
    apply splice_push.
Qed.

Lemma records_distinct_ids (l : list (gmap string json)) :
  records_distinct l = true -> ids_unique (normalizeTask <$> l) = true.
Proof.
  induction l as [|r l IH]; [reflexivity|].
  cbn [records_distinct fmap list_fmap ids_unique]. intros H.
  apply andb_true_iff in H as [H Hl].
  apply andb_true_iff in H as [Ht Hr]. apply negb_true_iff in Hr.
  rewrite (IH Hl), andb_true_r. apply negb_true_iff.
  destruct (existsb _ (normalizeTask <$> l)) eqn:He; [|reflexivity].
  apply existsb_exists in He as (t & Hin & Hh).
  apply list_elem_of_In, list_elem_of_fmap in Hin as (r' & -> & Hr').
  assert (Hx : existsb (fun r' => strict_eq (prop r' "_id") (prop r "_id")) l
               = true).
  { apply existsb_exists. exists r'. split; [now apply list_elem_of_In|].
    assert (Htr' : truthy (prop r' "_id") = true).
    { clear -Hl Hr'. induction l as [|a l IHl]; [inversion Hr'|].
      cbn in Hl. apply andb_true_iff in Hl as [Ha Hl].
      apply andb_true_iff in Ha as [Ha _].
      apply elem_of_cons in Hr' as [->|Hr']; [exact Ha | now apply IHl]. }
    unfold has_id in Hh. rewrite (normalizeTask_compares r' _ Htr') in Hh.
    rewrite strict_eq_sym, (normalizeTask_compares r _ Ht) in Hh.
    now rewrite strict_eq_sym. }
  congruence.
Qed.

Lemma count_id_one l i t id :
  ids_unique l = true -> l !! i = Some t -> has_id id t = true ->
  count_id id l = 1%nat.
Proof.
  revert i. induction l as [|a l IH]; intros i Hu Hi Hh; [discriminate|].
  pose proof Hu as Hu'. cbn in Hu'. apply andb_true_iff in Hu' as [_ Hl].
  unfold count_id. cbn [List.filter].
  destruct i as [|i]; cbn in Hi.
  - injection Hi as ->. rewrite Hh. cbn. f_equal.
    change (count_id id l = 0%nat). apply count_id_zero, findIndex_None.
    intros u Hu0. apply list_elem_of_lookup in Hu0 as [j Hj].
    destruct (has_id id u) eqn:Hhu; [|reflexivity].
    assert (0%nat = S j)
      by exact (ids_unique_one (t :: l) id 0 (S j) t u Hu eq_refl Hj Hh Hhu).
    discriminate.
  - destruct (has_id id a) eqn:Hha.
    + assert (0%nat = S i)
        by exact (ids_unique_one (a :: l) id 0 (S i) a t Hu eq_refl Hi Hha Hh).
      discriminate.
    + exact (IH i Hl Hi Hh).
Qed.

(** X15 (loading the task list). Loading replaces the cache, whatever it
    held, by the normalised records in the order received, and keeps the
    selection, the task being edited and the pending tokens. When the
    records carry truthy, pairwise different [_id]s, the identifiers of the
    cache are distinct and each record's identifier is found exactly once. *)
Theorem load_replaces_cache (records : list (gmap string json)) m :
  let m' := loadTasksFromAPI_resolved records m in
  length (tasks m') = length records /\
  (forall i r, records !! i = Some r -> tasks m' !! i = Some (normalizeTask r)) /\
  tasks m' = tasks (loadTasksFromAPI_resolved records constructor) /\
  selectedTask m' = selectedTask m /\
  editingTask m' = editingTask m /\
  pendingCreations m' = pendingCreations m /\
  (records_distinct records = true ->
   ids_unique (tasks m') = true /\
   forall r, r ∈ records -> count_id (prop r "_id") (tasks m') = 1%nat).
Proof.
  cbv zeta. cbn [loadTasksFromAPI_resolved tasks set_tasks selectedTask
                 editingTask pendingCreations].
  unfold loadTasksFromAPI_resolved. cbn.
  split; [apply length_fmap|].
  split; [intros i r Hr; now rewrite list_lookup_fmap, Hr|].
  do 4 (split; [reflexivity|]).
  intros Hd. split; [now apply records_distinct_ids|].
  intros r Hr. apply list_elem_of_lookup in Hr as [i Hi].
  apply (count_id_one _ i (normalizeTask r)).
  - now apply records_distinct_ids.
  - now rewrite list_lookup_fmap, Hi.
  - apply has_id_normalizeTask.
    clear -Hd Hi. revert i Hi.
    induction records as [|a l IHl]; intros i Hi; [discriminate|].
    cbn in Hd. apply andb_true_iff in Hd as [Ha Hl].
    apply andb_true_iff in Ha as [Ha _].
    destruct i as [|i]; cbn in Hi; [now injection Hi as <-|].
    exact (IHl Hl i Hi).
Qed.
End OtherClients.

Section CreateFlow.
Import Js Client Wire.
Context {R : Runtime}.
Implicit Types (m : Manager) (T : string).

Lemma add_remove_fresh (s : gset string) (x : string) :
  x ∉ s -> ({[x]} ∪ s) ∖ {[x]} = s.
Proof.
  intros Hx. apply set_eq. intros y.
  rewrite elem_of_difference, elem_of_union, elem_of_singleton.
  split; [tauto|]. intros Hy. split; [tauto|]. intros ->. contradiction.
Qed.

(** X16 (a creation leaves no token behind). For a token that was not
    already pending: a creation that fails puts the manager back exactly
    into the state it had before [createTask] was called, and a creation
    that succeeds leaves the pending set as it was before the call; in
    both cases, fresh token or not, the token is not pending afterwards. *)
Theorem create_retires_token m T (newTask : gmap string json) :
  (T ∉ pendingCreations m ->
   createTask_settled T (createTask_started T m) = m /\
   pendingCreations (saveTaskToAPI_created T newTask (createTask_started T m))
     = pendingCreations m) /\
  (T ∉ pendingCreations (createTask_settled T (createTask_started T m))) /\
  (T ∉ pendingCreations
         (saveTaskToAPI_created T newTask (createTask_started T m))).
Proof.
  assert (Hp : pendingCreations
                 (saveTaskToAPI_created T newTask (createTask_started T m))
               = ({[T]} ∪ pendingCreations m) ∖ {[T]}).
  { unfold saveTaskToAPI_created. now destruct (findIndex _ _). }
  split; [|split].
  - intros Hfresh. split.
    + unfold createTask_settled, createTask_started, set_pendingCreations.
      cbn. rewrite (add_remove_fresh _ _ Hfresh). now destruct m.
    + rewrite Hp. now apply add_remove_fresh.
  - cbn. intros Hin. apply elem_of_difference in Hin as [_ Hin].
    apply Hin, elem_of_singleton. reflexivity.
  - rewrite Hp. intros Hin. apply elem_of_difference in Hin as [_ Hin].
    apply Hin, elem_of_singleton. reflexivity.
Qed.
End CreateFlow.

Section FormToStore.
Import Js Server Wire.
Context {R : Runtime}.

(** X17 (what the form lets through, the store accepts). Form data that
    passes the validation of [saveTask], sent as the body of [createTask],
    is stored and returned by the server's create with the same title, start
    time, duration, colour and status, under the fresh identifier; so a task
    created through the form has a non-empty title and a duration of at
    least 15 minutes. This needs the status of the form to be one of the
    three allowed values, the store to read the written date back as the
    same instant, and the identifier to be unused. *)
Theorem form_data_is_accepted (toISOString : Z -> string)
    (taskData : Client.TaskData) (tempId : string) now oid (st : State) :
  Client.saveTask_validation taskData = Client.Save taskData ->
  In (Client.status taskData) status_enum ->
  (forall t, Client.startTime taskData = Some t ->
             castDate (Some (JStr (toISOString t))) = Cast (Some t)) ->
  findById oid (db st) = None ->
  exists task st' d,
    post_tasks now oid (createTask_body toISOString taskData tempId) st
      = (Created task, st') /\
    _id task = oid /\
    title task = Client.title taskData /\ title task <> "" /\
    Some (startTime task) = Client.startTime taskData /\
    Client.duration taskData = Fin d /\ duration task = d /\ (15 <= d)%Q /\
    color task = Some (Client.color taskData) /\
    status task = Some (Client.status taskData).
Proof.
  intros Hsave Hstatus Hdate Hfresh.
  unfold Client.saveTask_validation in Hsave.
  destruct (String.eqb_spec (Client.title taskData) "") as [|Htitle];
    [discriminate|].
  destruct (Client.startTime taskData) as [t|] eqn:Hstart; [|discriminate].
  cbn in Hsave.
  destruct (Client.duration taskData) as [|d] eqn:Hdur; [discriminate|].
  cbn in Hsave.
  destruct (Qle_bool 15 d) eqn:Hle; [|discriminate].
  apply Qle_bool_iff in Hle.
  set (body := createTask_body toISOString taskData tempId).
  assert (Hft : title_field body = Valid (Client.title taskData)).
  { unfold title_field, body, createTask_body.
    rewrite lookup_insert_eq. cbn. unfold is_empty_string.
    destruct (String.eqb_spec (Client.title taskData) ""); [contradiction|].
    reflexivity. }
  assert (Hfs : startTime_field body = Valid t).
  { unfold startTime_field, body, createTask_body.
    rewrite lookup_insert_ne, lookup_insert_eq by discriminate.
    rewrite Hstart, (Hdate t eq_refl). reflexivity. }
  assert (Hfd : duration_field body = Valid d).
  { unfold duration_field, body, createTask_body.
    rewrite !lookup_insert_ne, lookup_insert_eq by discriminate.
    rewrite Hdur. reflexivity. }
  assert (Hfc : color_field body = Valid (Some (Client.color taskData))).
  { unfold color_field, with_default, present, body, createTask_body.
    rewrite !lookup_insert_ne, lookup_insert_eq by discriminate.
    rewrite bool_decide_eq_true_2 by eauto. reflexivity. }
  assert (Hfst : status_field body = Valid (Some (Client.status taskData))).
  { unfold status_field, with_default, present, body, createTask_body.
    rewrite !lookup_insert_ne, lookup_insert_eq by discriminate.
    rewrite bool_decide_eq_true_2 by eauto.
    cbn [optional castString enum].
    assert (He : existsb (String.eqb (Client.status taskData)) status_enum
                 = true).
    { apply existsb_exists. exists (Client.status taskData).
      split; [exact Hstatus | apply String.eqb_refl]. }
    now rewrite He. }
  assert (Hfu : userId_field body = Valid (Some "default")).
  { unfold userId_field, with_default, present, body, createTask_body.
    rewrite !lookup_insert_ne, lookup_empty by discriminate.
    rewrite bool_decide_eq_false_2; [reflexivity|].
    intros [? ?]; discriminate. }
  unfold post_tasks. rewrite new_Task_without_tempId. unfold new_Task.
  rewrite Hft, Hfs, Hfd, Hfc, Hfst, Hfu. cbn [save _id]. rewrite Hfresh.
  eexists _, _, d. split; [reflexivity|]. cbn.
  repeat split; try reflexivity; assumption.
Qed.
End FormToStore.

Section StoreInvariant.
Import Js Server Queries.
Context {R : Runtime}.
Implicit Types (st : State) (body data : gmap string json).

Lemma title_field_nonempty data t : title_field data = Valid t -> t <> "".
Proof.
  unfold title_field, required.
  destruct (castString (data !! "title")) as [[s|]|]; try discriminate.
  unfold is_empty_string. destruct (String.eqb_spec s ""); [discriminate|].
  intros H. now injection H as <-.
Qed.

Lemma enum_allowed (f : field (option string)) s :
  enum status_enum f = Valid (Some s) -> In s status_enum.
Proof.
  unfold enum. destruct f as [[v|]|k]; try discriminate.
  destruct (existsb (String.eqb v) status_enum) eqn:He; [|discriminate].
  intros H. injection H as <-.
  apply existsb_exists in He as (x & Hin & Hx).
  apply String.eqb_eq in Hx. now subst.
Qed.

Lemma new_Task_ok now oid data task :
  new_Task now oid data = inl task -> task_ok task.
Proof.
  unfold new_Task.
  destruct (title_field data) as [t|] eqn:Ht; [|destruct (startTime_field data),
    (duration_field data), (color_field data), (status_field data),
    (userId_field data); discriminate].
  destruct (startTime_field data), (duration_field data), (color_field data),
    (status_field data) as [sv|] eqn:Hs, (userId_field data); try discriminate.
  intros H. injection H as <-. split; cbn.
  - exact (title_field_nonempty data t Ht).
  - intros s ->. exact (enum_allowed _ s Hs).
Qed.

Lemma findByIdAndUpdate_ok now id body dbase task db' :
  Forall task_ok dbase ->
  findByIdAndUpdate now id body dbase = inl (Some (task, db')) ->
  Forall task_ok db'.
Proof.
  intros Hall. unfold findByIdAndUpdate.
  destruct (negb (is_object_id id)); [discriminate|].
  cbv zeta. destruct (List.find is_cast_error _) as [[path k]|]; [discriminate|].
  match goal with |- context [match ?e with [] => _ | _ :: _ => _ end] =>
    destruct e; [|discriminate] end.
  destruct (findIndex _ dbase) as [i|]; [|discriminate].
  destruct (dbase !! i) as [old|] eqn:Hold; [|discriminate].
  intros H. injection H as <- <-.
  apply Forall_insert; [exact Hall|].
  destruct (Forall_lookup_1 _ _ _ _ Hall Hold) as [Htitle Hstatus].
  split; cbn.
  - unfold change. destruct (present body "title"); [|exact Htitle].
    destruct (title_field body) as [t|] eqn:Ht; [|exact Htitle].
    exact (title_field_nonempty body t Ht).
  - intros s. unfold change. destruct (present body "status"); [|apply Hstatus].
    destruct (enum status_enum _) as [sv|] eqn:He; [|apply Hstatus].
    cbn. intros ->. exact (enum_allowed _ s He).
Qed.

Lemma act_store_ok st a : Forall task_ok (db st) -> Forall task_ok (db (act st a)).
Proof.
  intros Hall. destruct a as [[now oid body|now id body|id]|w|w|w rs];
    cbn [act serve]; try exact Hall.
  - unfold post_tasks. destruct (save (db st) _) as [[task db']|e] eqn:Hs;
      [|exact Hall].
    apply save_inl in Hs as (Hn & _ & ->). cbn.
    apply Forall_app. split; [exact Hall|].
    constructor; [|constructor]. exact (new_Task_ok _ _ _ _ Hn).
  - unfold put_tasks.
    destruct (findByIdAndUpdate now id body (db st)) as [[[task db']|]|e] eqn:Hu;
      try exact Hall.
    cbn. exact (findByIdAndUpdate_ok _ _ _ _ _ _ Hall Hu).
  - unfold delete_tasks.
    destruct (findByIdAndDelete id (db st)) as [[[old db']|]|e] eqn:Hd;
      try exact Hall.
    apply findByIdAndDelete_Some in Hd as (i & _ & _ & ->). cbn.
    now apply Forall_delete.
Qed.

(** X18 (the store holds only validated tasks). If every stored task has a
    non-empty title and a status that is [null] or one of [pending],
    [in-progress], [completed], this is still so after any sequence of
    creations, updates, deletions and socket events in which the bodies are
    flat objects of scalar values and no update body has an operator key
    (a key that starts with [$]): creation validates the new document and
    such an update runs the validators on the paths it sets. *)
Theorem store_stays_valid (l : list action) st :
  forallb plain_update l = true ->
  Forall task_ok (db st) -> Forall task_ok (db (acts l st)).
Proof.
  intros _. revert st.
  induction l as [|a l IH]; intros st Hall; [exact Hall|].
  unfold acts in *. cbn [foldl]. apply IH, act_store_ok, Hall.
Qed.
End StoreInvariant.

Section MoreWitnesses.
Import Js Samples.
Local Existing Instance ExampleRuntime.runtime.

Lemma registry_tracks_connections_witness :
  Queries.sent_on 1
    (Queries.acts
       [Queries.Request
          (Server.POST 1735722000123 "65a1b2c3d4e5f60718293a4b"
             (sample_body "X" 15));
        Queries.Connect 3]
       (Server.on_close 1 sample_state))
  = None.
Proof.
  destruct (registry_tracks_connections (R := ExampleRuntime.runtime)
              [Queries.Request
                 (Server.POST 1735722000123 "65a1b2c3d4e5f60718293a4b"
                    (sample_body "X" 15));
               Queries.Connect 3] sample_state 1) as (_ & _ & Hclosed).
  exact (proj2 (Hclosed eq_refl)).
Defined.

Lemma task_lifecycle_witness :
  Queries.get_task "65a1b2c3d4e5f60718293a4b"
    (Server.post_tasks 1735722000123 "65a1b2c3d4e5f60718293a4b"
       (sample_body "X" 15) sample_state).2
  = Server.Ok (sample_task 15).
Proof.
  refine (proj1 (task_lifecycle (R := ExampleRuntime.runtime) 1735722000123
                   "65a1b2c3d4e5f60718293a4b" (sample_body "X" 15)
                   sample_state (sample_task 15) _ _ _)).
  - reflexivity.
  - vm_compute. reflexivity.
Defined.

Lemma own_delete_echo_witness :
  Client.handleWebSocketMessage
    {| Client.type := "task:deleted";
       Client.data := {["id" := JStr "65a1b2c3d4e5f60718293a4c"]} |}
    (Client.deleteTaskFromAPI_resolved (VStr "65a1b2c3d4e5f60718293a4c") loaded2)
  = Client.deleteTaskFromAPI_resolved (VStr "65a1b2c3d4e5f60718293a4c") loaded2.
Proof.
  destruct (own_delete_echo (R := ExampleRuntime.runtime) loaded2
              (VStr "65a1b2c3d4e5f60718293a4c")
              {["id" := JStr "65a1b2c3d4e5f60718293a4c"]})
    as (_ & _ & Hecho).
  - vm_compute. reflexivity.
  - reflexivity.
  - exact Hecho.
Defined.

Lemma own_update_echo_witness :
  Client.handleWebSocketMessage
    {| Client.type := "task:updated";
       Client.data := <["title" := JStr "Daily"]> standup |}
    (Client.saveTaskToAPI_updated (<["title" := JStr "Daily"]> standup)
       (Client.step loaded (Client.OpenTaskModal (Some 0%nat))))
  = Client.saveTaskToAPI_updated (<["title" := JStr "Daily"]> standup)
      (Client.step loaded (Client.OpenTaskModal (Some 0%nat))).
Proof.
  apply (own_update_echo (R := ExampleRuntime.runtime)
           (Client.step loaded (Client.OpenTaskModal (Some 0%nat)))
           (<["title" := JStr "Daily"]> standup)
           (Client.normalizeTask standup)).
  - reflexivity.
  - vm_compute. reflexivity.
  - vm_compute. reflexivity.
Defined.

Lemma created_by_another_client_witness :
  Client.tasks
    (Client.handleWebSocketMessage
       {| Client.type := "task:created"; Client.data := review |} loaded)
  = Client.tasks loaded ++ [Client.normalizeTask review].
Proof.
  destruct (created_by_another_client (R := ExampleRuntime.runtime) loaded
              review) as (Hnew & _).
  - vm_compute. reflexivity.
  - vm_compute. reflexivity.
  - apply Hnew. vm_compute. reflexivity.
Defined.

Lemma load_replaces_cache_witness :
  Client.ids_unique
    (Client.tasks (Client.loadTasksFromAPI_resolved [standup; review] loaded))
  = true.
Proof.
  destruct (load_replaces_cache (R := ExampleRuntime.runtime)
              [standup; review] loaded) as (_ & _ & _ & _ & _ & _ & Hd).
  apply Hd. vm_compute. reflexivity.
Defined.

Lemma create_retires_token_witness :
  Client.createTask_settled token (Client.createTask_started token loaded)
  = loaded.
Proof.
  destruct (create_retires_token (R := ExampleRuntime.runtime) loaded token
              standup) as (Hfresh & _).
  apply Hfresh. apply not_elem_of_empty.
Defined.

Lemma form_data_is_accepted_witness :
  exists task st' d,
    Server.post_tasks 1735722000123 "65a1b2c3d4e5f60718293a4b"
      (Wire.createTask_body (fun _ => "2025-01-01T09:00:00.000Z")
         {| Client.title := "Standup"; Client.startTime := Some 1735722000000%Z;
            Client.duration := Fin 15; Client.color := "#3B82F6";
            Client.status := "pending" |} token) sample_state
      = (Server.Created task, st') /\
    Server._id task = "65a1b2c3d4e5f60718293a4b" /\
    Server.title task = "Standup" /\ Server.title task <> "" /\
    Some (Server.startTime task) = Some 1735722000000%Z /\
    Fin 15 = Fin d /\ Server.duration task = d /\ (15 <= d)%Q /\
    Server.color task = Some "#3B82F6" /\
    Server.status task = Some "pending".
Proof.
  apply (form_data_is_accepted (R := ExampleRuntime.runtime)
           (fun _ => "2025-01-01T09:00:00.000Z")
           {| Client.title := "Standup"; Client.startTime := Some 1735722000000%Z;
              Client.duration := Fin 15; Client.color := "#3B82F6";
              Client.status := "pending" |} token 1735722000123
           "65a1b2c3d4e5f60718293a4b" sample_state).
  - reflexivity.
  - left. reflexivity.
  - intros t Ht. injection Ht as <-. vm_compute. reflexivity.
  - reflexivity.
Defined.

Lemma store_stays_valid_witness :
  Forall Queries.task_ok
    (Server.db
       (Queries.acts
          [Queries.Request
             (Server.POST 1735722000123 "65a1b2c3d4e5f60718293a4b"
                (sample_body "X" 15));
           Queries.Request
             (Server.PUT 1735722000456 "65a1b2c3d4e5f60718293a4b"
                (<["title" := JStr ""]> ∅))]
          sample_state)).
Proof.
  apply (store_stays_valid (R := ExampleRuntime.runtime)).
  - vm_compute. reflexivity.
  - constructor.
Defined.
End MoreWitnesses.

Section SidebarFacts.
Import Js Client Queries Sidebar.
Context {T : Text}.
Implicit Types (m : Manager) (l : list (gmap string jsval)).

Lemma filter_tasks_total s f l :
  s = "" \/ Forall listable l ->
  filter_tasks s f l = Some (List.filter (visible s f) l).
Proof.
  intros Hok. induction l as [|t l IH]; [reflexivity|].
  assert (Hl : s = "" \/ Forall listable l).
  { destruct Hok as [Hs|Hall]; [now left | right; now inversion Hall]. }
  assert (Ht : exists b, matchesSearch s t = Some b).
  { unfold matchesSearch. destruct (String.eqb_spec s "") as [Hs|Hs]; [eauto|].
    destruct Hok as [?|Hall]; [contradiction|].
    inversion Hall as [|? ? [[title Htitle] _] _]; subst.
    rewrite Htitle. eauto. }
  destruct Ht as [b Hb].
  cbn [filter_tasks List.filter]. unfold visible at 1.
  rewrite Hb, (IH Hl). reflexivity.
Qed.

Lemma sort_by_short {A} (key : A -> Z) (l : list A) :
  (length l <= 1)%nat -> sort_by key l = l.
Proof.
  destruct l as [|x [|y l]]; cbn; intros Hlen; [reflexivity | reflexivity | lia].
Qed.

Lemma filter_insert_by {A} (key : A -> Z) (k : Z) x (l : list A) :
  List.filter (fun a => (key a =? k)%Z) (insert_by key x l)
  = List.filter (fun a => (key a =? k)%Z) (x :: l).
Proof.
  induction l as [|y l IH]; [reflexivity|].
  cbn [insert_by]. destruct (Z.ltb_spec (key y) (key x)) as [Hlt|Hge];
    [|reflexivity].
  cbn [List.filter] in *. rewrite IH.
  destruct (Z.eqb_spec (key x) k), (Z.eqb_spec (key y) k); try reflexivity.
  lia.
Qed.

Lemma sort_by_stable {A} (key : A -> Z) (k : Z) (l : list A) :
  List.filter (fun a => (key a =? k)%Z) (sort_by key l)
  = List.filter (fun a => (key a =? k)%Z) l.
Proof.
  induction l as [|x l IH]; [reflexivity|].
  cbn [sort_by]. rewrite filter_insert_by. cbn [List.filter].
  now rewrite IH.
Qed.

Lemma renderTaskList_Shown taskSearch statusFilter m :
  searchTerm taskSearch = "" \/ Forall listable (tasks m) ->
  Forall (fun t => is_Some (getTime t)) (tasks m) ->
  renderTaskList taskSearch statusFilter m
  = Shown (sort_by time
             (List.filter
                (visible (searchTerm taskSearch) (selected statusFilter))
                (tasks m))).
Proof.
  intros Hok Hdates. unfold renderTaskList. cbv zeta.
  rewrite (filter_tasks_total _ _ _ Hok).
  destruct (Nat.leb_spec (length (List.filter
     (visible (searchTerm taskSearch) (selected statusFilter)) (tasks m))) 1)
    as [Hshort|Hlong].
  - now rewrite sort_by_short.
  - rewrite (proj2 (forallb_forall _ _)); [reflexivity|].
    intros t Hin. apply List.filter_In in Hin as [Hin _].
    apply bool_decide_eq_true.
    exact (proj1 (List.Forall_forall _ _) Hdates t Hin).
Qed.

(** X19 (the task list of the sidebar). When every cached task has a
    string for a title and a valid date for a start time, the sidebar lists
    exactly the cached tasks that pass the filter, each as often as it is
    cached, in ascending order of start time, tasks with the same start
    time in the order of the cache. A task passes when its lowered title
    contains the search term (lowered and trimmed; an empty term lets all
    pass) and its status is the selected one (a missing or empty selection
    and ["all"] let all pass); so with no search term and no selection the
    list is a rearrangement of the whole cache. *)
Theorem sidebar_sorted_filtered (taskSearch statusFilter : option string) m :
  Forall listable (tasks m) ->
  exists filteredTasks,
    renderTaskList taskSearch statusFilter m = Shown filteredTasks /\
    StronglySorted (fun a b => (time a <= time b)%Z) filteredTasks /\
    (forall k,
       List.filter (fun t => (time t =? k)%Z) filteredTasks
       = List.filter (fun t => (time t =? k)%Z)
           (List.filter
              (visible (searchTerm taskSearch) (selected statusFilter))
              (tasks m))) /\
    (forall t,
       In t filteredTasks <->
       In t (tasks m) /\
       (searchTerm taskSearch = "" \/
        exists title, get t "title" = VStr title /\
          includes (toLowerCase title) (searchTerm taskSearch) = true) /\
       (statusFilter = None \/ statusFilter = Some "" \/
        statusFilter = Some "all" \/
        exists s, statusFilter = Some s /\ get t "status" = VStr s)) /\
    (searchTerm taskSearch = "" ->
     statusFilter = None \/ statusFilter = Some "" \/ statusFilter = Some "all" ->
     filteredTasks ≡ₚ tasks m).
Proof.
  intros Hall.
  assert (Hdates : Forall (fun t => is_Some (getTime t)) (tasks m)).
  { eapply Forall_impl; [exact Hall|]. intros t [_ [ms Hms]].
    unfold getTime. rewrite Hms. eauto. }
  set (f := selected statusFilter).
  assert (Hvis : forall t, In t (tasks m) ->
            visible (searchTerm taskSearch) f t = true <->
            (searchTerm taskSearch = "" \/
             exists title, get t "title" = VStr title /\
               includes (toLowerCase title) (searchTerm taskSearch) = true) /\
            (statusFilter = None \/ statusFilter = Some "" \/
             statusFilter = Some "all" \/
             exists s, statusFilter = Some s /\ get t "status" = VStr s)).
  { intros t Hin.
    destruct (proj1 (List.Forall_forall _ _) Hall t Hin) as [[title Htitle] _].
    assert (Hstatus : matchesStatus f t = true <->
              (statusFilter = None \/ statusFilter = Some "" \/
               statusFilter = Some "all" \/
               exists s, statusFilter = Some s /\ get t "status" = VStr s)).
    { unfold matchesStatus. rewrite orb_true_iff. subst f. unfold selected.
      destruct statusFilter as [value|]; [|cbn; tauto].
      destruct (String.eqb_spec value "") as [->|Hne]; [cbn; tauto|].
      split.
      - intros [Hall'|Heq].
        + apply String.eqb_eq in Hall'. subst. tauto.
        + right; right; right. exists value. split; [reflexivity|].
          destruct (get t "status") as [| |?|[|?]|s|?]; try discriminate.
          cbn in Heq. apply String.eqb_eq in Heq. now subst.
      - intros [?|[[= ?]|[[= ->]|(s & [= ->] & Hs)]]]; try discriminate;
          try contradiction.
        + now left.
        + right. rewrite Hs. cbn. apply String.eqb_refl. }
    unfold visible, matchesSearch. rewrite Htitle.
    destruct (String.eqb_spec (searchTerm taskSearch) "") as [Hs|Hs].
    - cbn [andb]. rewrite Hstatus. tauto.
    - rewrite andb_true_iff, Hstatus. split.
      + intros [Hinc Hst]. split; [right; eauto | exact Hst].
      + intros [[?|(title' & Ht' & Hinc)] Hst]; [contradiction|].
        injection Ht' as <-. now split. }
  exists (sort_by time (List.filter (visible (searchTerm taskSearch) f)
                          (tasks m))).
  split; [|split; [|split; [|split]]].
  - apply renderTaskList_Shown; [now right | exact Hdates].
  - apply (sort_by_sorted time).
  - intros k. apply sort_by_stable.
  - intros t. rewrite <- (list_elem_of_In _ t), (sort_by_Permutation time),
      (list_elem_of_In _ t), List.filter_In.
    split.
    + intros [Hin Hv]. split; [exact Hin|]. now apply Hvis.
    + intros [Hin Hv]. split; [exact Hin|]. now apply Hvis.
  - intros Hs Hf'. rewrite sort_by_Permutation.
    rewrite forallb_filter_id; [reflexivity|].
    apply forallb_forall. intros t Hin. apply Hvis; [exact Hin|]. tauto.
Qed.
End SidebarFacts.

Section SidebarWitness.
Import Js Client Sidebar.

Lemma sidebar_sorted_filtered_witness :
  exists filteredTasks,
    renderTaskList (T := ExampleText.text) (Some "  ") (Some "pending")
      (Client.loadTasksFromAPI_resolved (R := ExampleRuntime.runtime)
         [Samples.standup;
          <["startTime" := JStr "2025-01-01T08:00:00.000Z"]> Samples.review;
          <["status" := JStr "completed"]> Samples.review]
         Client.constructor)
    = Shown filteredTasks /\
    StronglySorted (fun a b => (time a <= time b)%Z) filteredTasks /\
    (fun t => get t "title") <$> filteredTasks
    = [VStr "Review"; VStr "Standup"].
Proof.
  destruct (sidebar_sorted_filtered (T := ExampleText.text) (Some "  ")
              (Some "pending")
              (Client.loadTasksFromAPI_resolved (R := ExampleRuntime.runtime)
                 [Samples.standup;
                  <["startTime" := JStr "2025-01-01T08:00:00.000Z"]>
                    Samples.review;
                  <["status" := JStr "completed"]> Samples.review]
                 Client.constructor)) as (l & Hl & Hsorted & _).
  - repeat constructor; eexists; vm_compute; reflexivity.
  - exists l. split; [exact Hl|]. split; [exact Hsorted|].
    vm_compute in Hl. injection Hl as <-. vm_compute. reflexivity.
Defined.
End SidebarWitness.

Section InterleavingFacts.
Import Js Interleaving.
Context {R : Runtime}.
Implicit Types (st : State) (ws : nat) (c : Socket) (e : event).




Lemma broadcasts_app fs fs' :
  broadcasts (fs ++ fs') = broadcasts fs ++ broadcasts fs'.
Proof. apply omap_app. Qed.









Lemma erase_broadcast type data st :
  erase (broadcast type data st)
  = Server.broadcast type data (erase st).
Proof.
  unfold erase, broadcast, Server.broadcast, Server.deliver.
  cbn [db clients published Server.db Server.clients Server.published].
  f_equal. rewrite <- !list_fmap_compose. apply list_fmap_ext.
  intros i [s rs fs] _. unfold compose, Server.is_open, is_open.
  cbn [Server.readyState readyState socket frames].
  destruct rs; try reflexivity.
  unfold Server.send, send.
  cbn [Server.socket Server.readyState Server.sent socket readyState frames].
  now rewrite broadcasts_app.
Qed.

(** A request whose handler resumes right after its store operation is the
    request served in one step: the same state, and the same answer. *)
Lemma commit_resume_serve rq st :
  let st' := step (step st (Commit rq)) (Resume (length (suspended st))) in
  erase st' = (Server.serve rq (erase st)).2 /\
  suspended st' = suspended st /\
  answered st' = answered st ++ [(Server.serve rq (erase st)).1].
Proof.
  cbv zeta. cbn [step]. unfold resume, commit. cbn [suspended].
  rewrite list_lookup_middle by reflexivity.
  assert (Hdel : delete (length (suspended st))
                   (suspended st ++ [(operation rq (db st)).2])
                 = suspended st).
  { induction (suspended st) as [|a ks IH]; [reflexivity|].
    cbn [length app].
    change (delete (S (length ks)) (a :: ks ++ [(operation rq (db st)).2]))
      with (a :: delete (length ks) (ks ++ [(operation rq (db st)).2])).
    now rewrite IH. }
  rewrite Hdel.
  destruct rq as [now oid body|now id body|id];
    cbn [operation Server.serve]; unfold Server.post_tasks, Server.put_tasks,
      Server.delete_tasks; cbn [erase Server.db].
  - destruct (Server.save _ _) as [[task db']|e]; cbn; repeat split.
    rewrite erase_broadcast. reflexivity.
  - destruct (Server.findByIdAndUpdate _ _ _ _) as [[[task db']|]|e];
      cbn; repeat split.
    rewrite erase_broadcast. reflexivity.
  - destruct (Server.findByIdAndDelete _ _) as [[[old db']|]|e];
      cbn; repeat split.
    rewrite erase_broadcast. reflexivity.
Qed.
End InterleavingFacts.

Section InterleavingWitness.
Import Js Interleaving Traces.

End InterleavingWitness.
